(** * memcheck_xml2junit_converter: Valgrind Memcheck XML to JUnit XML

    A shallow embedding of [scripts/memcheck_xml2junit_converter.py] and
    the properties of its transcoding logic.

    The script is a Python 2 module (line 114 is indented with a tab,
    which Python 2 reads as eight columns) whose whole body runs at top
    level: it walks the input directory, parses every file whose name contains
    "xml" with [xml.etree.ElementTree], and writes one JUnit report per
    parsed file by concatenating text fragments.

    Modelling choices
    - Python byte strings are [string]; [+] on strings is [append].
      Every [.text] of an element is an [option string] ([None] for an
      element without character data), and [str + None] raises.
    - An [Element] keeps its tag, its text and its children.  Attributes
      and tails exist in ElementTree but the script never looks at them.
    - The module-level variables [fi] and [li] are the only ones that are
      read before being assigned on some path; they are kept in an
      explicit store.  Every other variable is assigned before each use.
    - [out.write] appends to the text of the file that is open; the text
      written so far is kept when an exception propagates.
    - Uncaught exceptions are values of [exn]; the [Raise] result of the
      whole run is the crash of the interpreter.
    - [ET.parse] and [os.walk] are library code.  Parsing is a function
      from paths to an optional root element ([None] is [ET.ParseError]).
      A file that cannot be opened makes [ET.parse] raise another
      exception, which the script does not catch; this is outside the
      model, where every listed file can be read.
    - The directory tree stands for what [os.walk] lists when it reaches
      each directory, and [parse] for what [ET.parse] finds when it is
      called, in one run.  [os.walk] lists lazily: when the output
      directory lies inside the input directory, what a run lists and
      parses can depend on what it wrote before, so two runs, or the two
      modes on one input, need not see the same tree. *)

From Stdlib Require Import String Ascii List Bool Arith Lia DecimalString.
From Stdlib Require Import DecimalFacts DecimalNat.
Import ListNotations.
Set Warnings "-register-all".
Open Scope list_scope.
Open Scope string_scope.

(** ** Strings *)

(** The double quote character, which the script writes around every
    attribute value. *)
Definition dq : string := String "034"%char EmptyString.

(** The newline written as backslash-n in the source. *)
Definition nl : string := String "010"%char EmptyString.

(** An attribute value between double quotes. *)
Definition q (s : string) : string := dq ++ s ++ dq.

(** [str(n)] for a non-negative integer. *)
Definition str (n : nat) : string := NilZero.string_of_uint (Nat.to_uint n).

(** [pat in s] for strings: [pat] occurs as a substring of [s]. *)
Fixpoint contains (pat s : string) : bool :=
  prefix pat s ||
  match s with
  | EmptyString => false
  | String _ s' => contains pat s'
  end.

(** [s.endswith(suf)]. *)
Definition endswith (s suf : string) : bool :=
  (String.length suf <=? String.length s)%nat &&
  (substring (String.length s - String.length suf) (String.length suf) s
   =? suf).

(** [s.replace(old, new)] where [old] is a single character, which is
    how the script calls it: every occurrence is replaced, left to
    right. *)
Fixpoint replace (old : ascii) (new s : string) : string :=
  match s with
  | EmptyString => EmptyString
  | String c s' =>
      if Ascii.eqb c old then new ++ replace old new s'
      else String c (replace old new s')
  end.

(** ** Paths ([posixpath]) *)

Definition slash : ascii := "/"%char.

Definition has_slash (p : string) : bool :=
  existsb (Ascii.eqb slash) (list_ascii_of_string p).

(** [os.path.basename(p)]: what follows the last slash. *)
Fixpoint basename (p : string) : string :=
  match p with
  | EmptyString => EmptyString
  | String c r =>
      if has_slash r then basename r
      else if Ascii.eqb c slash then r
      else p
  end.

(** [os.path.join(a, b)]. *)
Definition join (a b : string) : string :=
  if prefix "/" b then b
  else if (a =? EmptyString) || endswith a "/" then a ++ b
  else a ++ "/" ++ b.

(** ** Element trees *)

Inductive Element : Type :=
| Elem (tag : string) (text : option string) (children : list Element).

Definition tag (e : Element) : string :=
  match e with Elem t _ _ => t end.

Definition text (e : Element) : option string :=
  match e with Elem _ x _ => x end.

Definition children (e : Element) : list Element :=
  match e with Elem _ _ cs => cs end.

(** [e.findall(t)] for a plain tag: the direct children with that tag. *)
Definition findall (t : string) (e : Element) : list Element :=
  filter (fun c => tag c =? t) (children e).

(** [e.find(t)]: the first of them. *)
Definition find (t : string) (e : Element) : option Element :=
  hd_error (findall t e).

(** [e.find('a/b')]: the first [b] child of an [a] child. *)
Definition find2 (a b : string) (e : Element) : option Element :=
  hd_error (flat_map (findall b) (findall a e)).

(** [e.iter()]: the element and all its descendants in document order. *)
Fixpoint iter (e : Element) : list Element :=
  match e with
  | Elem _ _ cs => e :: flat_map iter cs
  end.

(** [e.findall('.//t')]: all proper descendants with tag [t], in
    document order.  The element itself is never part of the result. *)
Definition findall_descendants (t : string) (e : Element) : list Element :=
  filter (fun c => tag c =? t) (flat_map iter (children e)).

(** ** Exceptions and results *)

Inductive exn : Type :=
| NameError        (* an unbound variable is read *)
| AttributeError   (* an attribute of None is read *)
| TypeError.       (* str + None *)

Inductive result (A : Type) : Type :=
| Ok (a : A)
| Raise (e : exn).

Arguments Ok {A} a.
Arguments Raise {A} e.

(** Expressions: evaluation either gives a value or raises. *)
Definition ebind {A B} (r : result A) (f : A -> result B) : result B :=
  match r with
  | Ok a => f a
  | Raise e => Raise e
  end.

(** [o.text] where [o] may be [None]. *)
Definition text_of (o : option Element) : result (option string) :=
  match o with
  | Some e => Ok (text e)
  | None => Raise AttributeError
  end.

(** [s + v] where [s] is a string and [v] may be [None]. *)
Definition add (s : string) (v : option string) : result string :=
  match v with
  | Some t => Ok (s ++ t)
  | None => Raise TypeError
  end.

(** [s + o.text]. *)
Definition add_text (s : string) (o : option Element) : result string :=
  ebind (text_of o) (add s).

(** [v.replace(old, new)] where [v] may be [None]. *)
Definition replace_of (old : ascii) (new : string) (v : option string)
  : result string :=
  match v with
  | Some s => Ok (replace old new s)
  | None => Raise AttributeError
  end.

(** ** The store of [fi] and [li], and the file being written *)

Inductive pyvar : Type :=
| Unbound
| Bound (v : option Element).

Record vars : Type := MkVars { var_fi : pyvar; var_li : pyvar }.

(** A statement runs from a store and gives a result, the new store and
    the text it wrote to [out]. *)
Definition T (A : Type) : Type := vars -> result A * vars * string.

Definition ret {A} (a : A) : T A := fun vs => (Ok a, vs, EmptyString).

Definition bind {A B} (m : T A) (f : A -> T B) : T B := fun vs =>
  match m vs with
  | (Ok a, vs1, o1) =>
      match f a vs1 with
      | (r, vs2, o2) => (r, vs2, o1 ++ o2)
      end
  | (Raise e, vs1, o1) => (Raise e, vs1, o1)
  end.

Notation "x <- m ;; k" := (bind m (fun x => k))
  (at level 61, m at next level, right associativity).
Notation "m ;; k" := (bind m (fun _ => k))
  (at level 61, right associativity).

(** An expression used inside a statement. *)
Definition eval {A} (r : result A) : T A := fun vs => (r, vs, EmptyString).

(** [out.write(s)]. *)
Definition write (s : string) : T unit := fun vs => (Ok tt, vs, s).

(** Reading [fi] or [li]. *)
Definition load (sel : vars -> pyvar) : T (option Element) := fun vs =>
  match sel vs with
  | Bound v => (Ok v, vs, EmptyString)
  | Unbound => (Raise NameError, vs, EmptyString)
  end.

(** [fi = frame.find('file')] followed by [li = frame.find('line')]. *)
Definition assign_fi_li (frame : Element) : T unit := fun _ =>
  (Ok tt,
   {| var_fi := Bound (find "file" frame);
      var_li := Bound (find "line" frame) |},
   EmptyString).

Definition is_some {A} (o : option A) : bool :=
  match o with Some _ => true | None => false end.

(** [fi != None and li != None]; [li] is read only when the left
    operand is true. *)
Definition fi_and_li : T bool :=
  fi <- load var_fi ;;
  if is_some fi then (li <- load var_li ;; ret (is_some li))
  else ret false.

(** ** The transcoder (lines 64 to 127 of the script) *)

(** [stack.findall('frame')] where [stack] may be [None]. *)
Definition findall_of (t : string) (o : option Element)
  : result (list Element) :=
  match o with
  | Some e => Ok (findall t e)
  | None => Raise AttributeError
  end.

(** Lines 96-100: the loop that looks for a frame with a file and a
    line.  It leaves its answer in [fi] and [li]. *)
Fixpoint scan_frames (frames : list Element) : T unit :=
  match frames with
  | [] => ret tt
  | frame :: rest =>
      assign_fi_li frame ;;
      found <- fi_and_li ;;
      if found then ret tt (* break *) else scan_frames rest
  end.

(** Lines 110-124: the line of the body for one frame. *)
Definition emit_frame (frame : Element) : T unit :=
  let ip := find "ip" frame in
  let fn := find "fn" frame in
  assign_fi_li frame ;;
  let bodytext :=
    match fn with
    | Some e => text e
    | None => Some "unknown function name"
    end in
  bodytext <- eval (replace_of "&" "&amp;" bodytext) ;;
  let bodytext := replace "<" "&lt;" bodytext in
  let bodytext := replace ">" "&gt;" bodytext in
  found <- fi_and_li ;;
  if found then
    fi <- load var_fi ;;
    li <- load var_li ;;
    s <- eval (add_text "  " ip) ;;
    s <- eval (add_text (s ++ ": " ++ bodytext ++ " (") fi) ;;
    s <- eval (add_text (s ++ ":") li) ;;
    write (s ++ ")" ++ nl)
  else
    s <- eval (add_text "  " ip) ;;
    write (s ++ ": " ++ bodytext ++ nl).

(** Lines 109-124. *)
Fixpoint emit_frames (frames : list Element) : T unit :=
  match frames with
  | [] => ret tt
  | frame :: rest => emit_frame frame ;; emit_frames rest
  end.

(** The start of both [<testcase>] lines (103 and 105), up to the
    opening parenthesis of the name. *)
Definition testcase_start (filename : string) (errorcount : nat) : string :=
  "    <testcase classname=" ++ q "valgrind-memcheck" ++ " name=" ++ dq
  ++ filename ++ " " ++ str errorcount ++ " (".

(** Lines 89-91: [what], with its fallback to [xwhat/text]. *)
Definition what_of (error : Element) : option Element :=
  match find "what" error with
  | Some w => Some w
  | None => find2 "xwhat" "text" error
  end.

(** Lines 88-126: one error record, [errorcount] already incremented. *)
Definition emit_error (test_type filename : string) (errorcount : nat)
  (error : Element) : T unit :=
  let kind := find "kind" error in
  let what := what_of error in
  let stack := find "stack" error in
  frames <- eval (findall_of "frame" stack) ;;
  scan_frames frames ;;
  found <- fi_and_li ;;
  (if found then
     fi <- load var_fi ;;
     li <- load var_li ;;
     s <- eval (add_text (testcase_start filename errorcount) kind) ;;
     s <- eval (add_text (s ++ ", ") fi) ;;
     s <- eval (add_text (s ++ ":") li) ;;
     write (s ++ ")" ++ dq ++ ">" ++ nl)
   else
     s <- eval (add_text (testcase_start filename errorcount) kind) ;;
     write (s ++ ")" ++ dq ++ ">" ++ nl)) ;;
  s <- eval (add_text ("        <" ++ test_type ++ " type=" ++ dq) kind) ;;
  write (s ++ dq ++ ">" ++ nl) ;;
  s <- eval (add_text "  " what) ;;
  write (s ++ nl ++ nl) ;;
  emit_frames frames ;;
  write ("        </" ++ test_type ++ ">" ++ nl) ;;
  write ("    </testcase>" ++ nl).

(** Lines 84-126: the loop over the error records. *)
Fixpoint emit_errors (test_type filename : string) (errorcount : nat)
  (errors : list Element) : T unit :=
  match errors with
  | [] => ret tt
  | error :: rest =>
      let errorcount := errorcount + 1 in
      emit_error test_type filename errorcount error ;;
      emit_errors test_type filename errorcount rest
  end.

(** Lines 64 and 71-127: everything written to one output file. *)
Definition transcode (skip_tests : bool) (filename : string) (doc : Element)
  : T unit :=
  let errors := findall_descendants "error" doc in
  let test_type := if skip_tests then "skipped" else "error" in
  let plural := if skip_tests then EmptyString else "s" in
  write ("<?xml version=" ++ q "1.0" ++ " encoding=" ++ q "UTF-8" ++ "?>"
         ++ nl) ;;
  (if (List.length errors =? 0)%nat then
     write ("<testsuite name=" ++ q "valgrind" ++ " tests=" ++ q "1" ++ " "
            ++ test_type ++ plural ++ "=" ++ q (str (List.length errors))
            ++ ">" ++ nl) ;;
     write ("    <testcase classname=" ++ q "valgrind-memcheck" ++ " name="
            ++ q filename ++ "/>" ++ nl)
   else
     write ("<testsuite name=" ++ q "valgrind" ++ " tests="
            ++ q (str (List.length errors)) ++ " "
            ++ test_type ++ plural ++ "=" ++ q (str (List.length errors))
            ++ ">" ++ nl) ;;
     emit_errors test_type filename 0 errors) ;;
  write ("</testsuite>" ++ nl).

(** ** The run over the directory tree (lines 53 to 63, 67-69, 77, 128) *)

(** A directory: the names of its files and its subdirectories, in the
    order [os.listdir] gives them. *)
Inductive Dir : Type :=
| MkDir (files : list string) (subdirs : list (string * Dir)).

(** [os.walk(top)], top-down: the triples [(subdir, dirs, files)]. *)
Fixpoint walk (top : string) (d : Dir)
  : list (string * list string * list string) :=
  match d with
  | MkDir files subdirs =>
      (top, map fst subdirs, files)
      :: flat_map (fun nd => walk (join top (fst nd)) (snd nd)) subdirs
  end.

(** What the run has done so far: the store, the paths given to
    [ET.parse] and the files written, most recent first.  A file is
    listed with the text written to it; writing a path again replaces
    the older file. *)
Record world : Type := MkWorld {
  w_vars : vars;
  w_parsed : list string;
  w_files : list (string * string)
}.

Definition W : Type := world -> result unit * world.

Section Run.

(** [ET.parse]: the root element of the file at a path, or [None] when
    the file is not well-formed markup. *)
Variable parse : string -> option Element.
Variable skip_tests : bool.
Variable output_directory : string.

(** Lines 59-128: one file whose name contains "xml". *)
Definition convert (subdir filename : string) : W := fun w =>
  let input_filepath := join subdir filename in
  match parse input_filepath with
  | None =>                                   (* except: continue *)
      (Ok tt,
       {| w_vars := w_vars w;
          w_parsed := input_filepath :: w_parsed w;
          w_files := w_files w |})
  | Some doc =>
      let output_filename := join output_directory filename in
      let output_filename :=
        if endswith output_filename ".xml" then output_filename
        else output_filename ++ ".xml" in
      match transcode skip_tests filename doc (w_vars w) with
      | (r, vs, o) =>
          (r,
           {| w_vars := vs;
              w_parsed := input_filepath :: w_parsed w;
              w_files := (output_filename, o) :: w_files w |})
      end
  end.

(** Lines 56-128: the files of one directory. *)
Fixpoint for_files (subdir : string) (files : list string) : W := fun w =>
  match files with
  | [] => (Ok tt, w)
  | filename :: rest =>
      if contains "xml" filename then
        match convert subdir filename w with
        | (Ok _, w') => for_files subdir rest w'
        | (Raise e, w') => (Raise e, w')
        end
      else for_files subdir rest w
  end.

(** Lines 53-128: the loop over what [os.walk] yields. *)
Fixpoint for_dirs (entries : list (string * list string * list string))
  : W := fun w =>
  match entries with
  | [] => (Ok tt, w)
  | (subdir, dirs, files) :: rest =>
      if basename subdir =? basename output_directory then
        for_dirs rest w                        (* continue *)
      else
        match for_files subdir files w with
        | (Ok _, w') => for_dirs rest w'
        | (Raise e, w') => (Raise e, w')
        end
  end.

End Run.

(** Nothing is bound, parsed or written when the script starts. *)
Definition initial : world :=
  {| w_vars := {| var_fi := Unbound; var_li := Unbound |};
     w_parsed := [];
     w_files := [] |}.

(** The whole script, for what [os.walk] lists and [ET.parse] finds in
    this run.  Creating the output directory (lines 50-51) comes first
    and is left out. *)
Definition run (parse : string -> option Element) (skip_tests : bool)
  (input_directory output_directory : string) (tree : Dir)
  : result unit * world :=
  for_dirs parse skip_tests output_directory (walk input_directory tree)
    initial.

(** ** What the loops leave in the store *)

(** The store after [fi] and [li] were assigned from a frame. *)
Definition vars_of (frame : Element) : vars :=
  {| var_fi := Bound (find "file" frame);
     var_li := Bound (find "line" frame) |}.

(** A frame with both a file and a line. *)
Definition qualifies (frame : Element) : bool :=
  is_some (find "file" frame) && is_some (find "line" frame).

(** The store after the loop of lines 96-100. *)
Fixpoint scan_vars (frames : list Element) (vs : vars) : vars :=
  match frames with
  | [] => vs
  | frame :: rest =>
      if qualifies frame then vars_of frame
      else scan_vars rest (vars_of frame)
  end.

(** The store after the loop of lines 109-124. *)
Definition body_vars (frames : list Element) (vs : vars) : vars :=
  fold_left (fun _ frame => vars_of frame) frames vs.

(** What lines 102-105 put after the kind in the name, read from the
    store: nothing, or a comma, the file, a colon and the line. *)
Definition suffix_of (vs : vars) : result string :=
  match var_fi vs with
  | Unbound => Raise NameError
  | Bound None => Ok EmptyString
  | Bound (Some fi) =>
      match var_li vs with
      | Unbound => Raise NameError
      | Bound None => Ok EmptyString
      | Bound (Some li) =>
          match text fi, text li with
          | Some f, Some l => Ok (", " ++ f ++ ":" ++ l)
          | _, _ => Raise TypeError
          end
      end
  end.

(** The frames of an error record, none when it has no stack. *)
Definition frames_of (error : Element) : list Element :=
  match find "stack" error with
  | Some stack => findall "frame" stack
  | None => []
  end.

(** A statement that ends with an exception. *)
Definition raises {A} (x : result A * vars * string) : Prop :=
  exists e, fst (fst x) = Raise e.

(** ** The data model of the specification *)

(** A stack frame.  The source file and line are used as a pair. *)
Record StackFrame : Type := MkFrame {
  instructionPointer : string;
  functionName : option string;
  location : option (string * string)
}.

Record ErrorRecord : Type := MkError {
  kind : string;
  description : string;
  callFrames : list StackFrame
}.

(** Reading a record out of the element tree.  [None] stands for an
    element from which a field that the script dereferences is missing. *)
Definition decode_location (frame : Element)
  : option (option (string * string)) :=
  match find "file" frame, find "line" frame with
  | Some fi, Some li =>
      match text fi, text li with
      | Some f, Some l => Some (Some (f, l))
      | _, _ => None
      end
  | _, _ => Some None
  end.

Definition decode_name (frame : Element) : option (option string) :=
  match find "fn" frame with
  | Some fn =>
      match text fn with
      | Some n => Some (Some n)
      | None => None
      end
  | None => Some None
  end.

Definition decode_frame (frame : Element) : option StackFrame :=
  match find "ip" frame with
  | Some ip =>
      match text ip, decode_name frame, decode_location frame with
      | Some i, Some n, Some loc => Some (MkFrame i n loc)
      | _, _, _ => None
      end
  | None => None
  end.

Fixpoint decode_frames (frames : list Element) : option (list StackFrame) :=
  match frames with
  | [] => Some []
  | frame :: rest =>
      match decode_frame frame, decode_frames rest with
      | Some sf, Some sfs => Some (sf :: sfs)
      | _, _ => None
      end
  end.

Definition decode_error (error : Element) : option ErrorRecord :=
  match find "kind" error, what_of error, find "stack" error with
  | Some k, Some w, Some stack =>
      match text k, text w, decode_frames (findall "frame" stack) with
      | Some kt, Some wt, Some sfs => Some (MkError kt wt sfs)
      | _, _, _ => None
      end
  | _, _, _ => None
  end.

(** A record that decodes and has at least one frame. *)
Definition record_ok (error : Element) : bool :=
  match decode_error error with
  | Some rec => negb (Nat.eqb (List.length (callFrames rec)) 0)
  | None => false
  end.

(** ** The output the specification describes *)

(** Escaping as the specification words it: one pass, three characters. *)
Definition escape_char (c : ascii) : string :=
  if Ascii.eqb c "&" then "&amp;"
  else if Ascii.eqb c "<" then "&lt;"
  else if Ascii.eqb c ">" then "&gt;"
  else String c EmptyString.

Fixpoint escape (s : string) : string :=
  match s with
  | EmptyString => EmptyString
  | String c r => escape_char c ++ escape r
  end.

Definition name_or_unknown (n : option string) : string :=
  match n with
  | Some s => s
  | None => "unknown function name"
  end.

(** One line of the body. *)
Definition frame_line (sf : StackFrame) : string :=
  "  " ++ instructionPointer sf ++ ": "
  ++ escape (name_or_unknown (functionName sf))
  ++ match location sf with
     | Some (f, l) => " (" ++ f ++ ":" ++ l ++ ")"
     | None => EmptyString
     end
  ++ nl.

(** The location of the first frame that has one. *)
Fixpoint first_location (sfs : list StackFrame) : option (string * string) :=
  match sfs with
  | [] => None
  | sf :: rest =>
      match location sf with
      | Some loc => Some loc
      | None => first_location rest
      end
  end.

Definition suffix_text (loc : option (string * string)) : string :=
  match loc with
  | Some (f, l) => ", " ++ f ++ ":" ++ l
  | None => EmptyString
  end.

Definition concat_all (l : list string) : string :=
  fold_right append EmptyString l.

Definition status_label (skip_tests : bool) : string :=
  if skip_tests then "skipped" else "error".

Definition count_attribute (skip_tests : bool) : string :=
  if skip_tests then "skipped" else "errors".

(** The name of a test case: file name, number, kind and suffix. *)
Definition case_name (filename : string) (i : nat) (k sfx : string)
  : string :=
  filename ++ " " ++ str i ++ " (" ++ k ++ sfx ++ ")".

(** A test case with its status child. *)
Definition case_text (label filename : string) (i : nat) (rec : ErrorRecord)
  (sfx : string) : string :=
  "    <testcase classname=" ++ q "valgrind-memcheck" ++ " name="
  ++ q (case_name filename i (kind rec) sfx) ++ ">" ++ nl
  ++ "        <" ++ label ++ " type=" ++ q (kind rec) ++ ">" ++ nl
  ++ "  " ++ description rec ++ nl ++ nl
  ++ concat_all (map frame_line (callFrames rec))
  ++ "        </" ++ label ++ ">" ++ nl
  ++ "    </testcase>" ++ nl.

Definition xml_decl : string :=
  "<?xml version=" ++ q "1.0" ++ " encoding=" ++ q "UTF-8" ++ "?>" ++ nl.

Definition suite_open (skip_tests : bool) (tests count : string) : string :=
  "<testsuite name=" ++ q "valgrind" ++ " tests=" ++ q tests ++ " "
  ++ count_attribute skip_tests ++ "=" ++ q count ++ ">" ++ nl.

Definition suite_close : string := "</testsuite>" ++ nl.

(** The passing case of a report without errors. *)
Definition passing_case (filename : string) : string :=
  "    <testcase classname=" ++ q "valgrind-memcheck" ++ " name="
  ++ q filename ++ "/>" ++ nl.

(** The path of the output file (lines 67-69). *)
Definition output_path (output_directory filename : string) : string :=
  if endswith (join output_directory filename) ".xml"
  then join output_directory filename
  else join output_directory filename ++ ".xml".

(** The text [c] is a test case for the [i]-th record [error]. *)
Definition case_for (label filename : string) (ie : nat * Element)
  (c : string) : Prop :=
  exists rec sfx,
    decode_error (snd ie) = Some rec /\
    (exists k, find "kind" (snd ie) = Some k /\ text k = Some (kind rec)) /\
    (sfx = EmptyString \/ exists f l, sfx = ", " ++ f ++ ":" ++ l) /\
    c = case_text label filename (fst ie) rec sfx.

(** ** The directory exclusion the specification describes *)



(** ** Notions used to state further properties *)

(** The character [c] occurs in [s]. *)
Definition has_char (c : ascii) (s : string) : bool :=
  existsb (Ascii.eqb c) (list_ascii_of_string s).



(** The files that the loops of lines 53-57 let through, in the order
    of the walk: each with the directory it is listed in. *)
Definition candidate_files (output_directory : string)
  (entries : list (string * list string * list string))
  : list (string * string) :=
  flat_map
    (fun entry =>
       match entry with
       | (subdir, _, files) =>
           if basename subdir =? basename output_directory then []
           else map (fun filename => (subdir, filename))
                  (filter (contains "xml") files)
       end)
    entries.

(** ** Sample reports *)

Definition leaf (t x : string) : Element := Elem t (Some x) [].

(** A frame with an instruction pointer only. *)
Definition frame_bare : Element :=
  Elem "frame" None [leaf "ip" "0x1"].

(** A frame with a function name, a file and a line. *)
Definition frame_a : Element :=
  Elem "frame" None
    [leaf "ip" "0x2"; leaf "fn" "A<B&C>"; leaf "file" "a.c";
     leaf "line" "10"].

Definition frame_b : Element :=
  Elem "frame" None [leaf "ip" "0x3"; leaf "file" "b.c"; leaf "line" "20"].

(** The record of the tie-break example: the first frame has no file. *)
Definition error_three_frames : Element :=
  Elem "error" None
    [leaf "kind" "Leak_DefinitelyLost"; leaf "what" "8 bytes lost";
     Elem "stack" None [frame_bare; frame_a; frame_b]].

(** A record whose frames have neither a file nor a line. *)
Definition error_bare_frames : Element :=
  Elem "error" None
    [leaf "kind" "UninitValue"; leaf "what" "Use of uninitialised value";
     Elem "stack" None [frame_bare; frame_bare]].

(** A record whose stack has no frame. *)
Definition error_no_frames : Element :=
  Elem "error" None
    [leaf "kind" "InvalidRead"; leaf "what" "Invalid read of size 4";
     Elem "stack" None []].

(** A record without a kind. *)
Definition error_no_kind : Element :=
  Elem "error" None
    [leaf "what" "Invalid read of size 4"; Elem "stack" None [frame_a]].

(** A record with neither [what] nor [xwhat/text]. *)
Definition error_no_description : Element :=
  Elem "error" None
    [leaf "kind" "InvalidRead"; Elem "stack" None [frame_a]].

(** A record described by [xwhat/text] only. *)
Definition error_xwhat : Element :=
  Elem "error" None
    [leaf "kind" "Leak_PossiblyLost";
     Elem "xwhat" None [leaf "text" "16 bytes possibly lost"];
     Elem "stack" None [frame_b]].

Definition report (errors : list Element) : Element :=
  Elem "valgrindoutput" None (leaf "protocolversion" "4" :: errors).

Definition unbound : vars := {| var_fi := Unbound; var_li := Unbound |}.

(** A directory with two reports; the second starts with a record that
    has no frame. *)
Definition two_reports : Dir := MkDir ["a.xml"; "b.xml"] [].

Definition parse_two_reports (path : string) : option Element :=
  if path =? "in/a.xml" then Some (report [error_three_frames])
  else if path =? "in/b.xml" then Some (report [error_no_frames])
  else None.

(** An input directory that holds the output directory of an earlier
    run, with a subdirectory inside it. *)
Definition nested_output : Dir :=
  MkDir ["a.xml"]
    [("out", MkDir ["old.xml"] [("sub", MkDir ["deep.xml"] [])])].

Definition parse_any (path : string) : option Element := Some (report []).

(** A directory with a file that is not markup and a sound report. *)
Definition mixed_reports : Dir := MkDir ["bad.xml"; "good.xml"] [].

Definition parse_mixed (path : string) : option Element :=
  if path =? "in/bad.xml" then None else Some (report [error_xwhat]).

(** A directory whose first report holds a record without a kind. *)
Definition faulty_reports : Dir := MkDir ["nokind.xml"; "good.xml"] [].

Definition parse_faulty (path : string) : option Element :=
  if path =? "in/nokind.xml" then Some (report [error_xwhat; error_no_kind])
  else Some (report [error_xwhat]).

(** * Properties *)

(** ** Strings *)

Lemma append_assoc (a b c : string) : (a ++ b) ++ c = a ++ b ++ c.
Proof. induction a as [|x a IH]; simpl; [reflexivity | now rewrite IH]. Qed.

(** The three replacements of lines 118-120, one after the other, are
    the one-pass escaping of the specification. *)
Lemma replace_chain_escape (s : string) :
  replace ">" "&gt;" (replace "<" "&lt;" (replace "&" "&amp;" s)) = escape s.
Proof.
  induction s as [|c s IH]; simpl; [reflexivity|].
  unfold escape_char.
  destruct (Ascii.eqb_spec c "&") as [->|Hamp]; simpl.
  - now rewrite IH.
  - destruct (Ascii.eqb_spec c "<") as [->|Hlt]; simpl.
    + now rewrite IH.
    + destruct (Ascii.eqb_spec c ">") as [->|Hgt]; simpl; now rewrite IH.
Qed.

(** ** The monad *)

Lemma bind_ok {A B} (m : T A) (f : A -> T B) vs a vs1 o1 r vs2 o2 :
  m vs = (Ok a, vs1, o1) ->
  f a vs1 = (r, vs2, o2) ->
  bind m f vs = (r, vs2, o1 ++ o2).
Proof. intros Hm Hf. unfold bind. now rewrite Hm, Hf. Qed.

Lemma bind_raise {A B} (m : T A) (f : A -> T B) vs e vs1 o1 :
  m vs = (Raise e, vs1, o1) ->
  bind m f vs = (Raise e, vs1, o1).
Proof. intros Hm. unfold bind. now rewrite Hm. Qed.

Lemma raises_bind_l {A B} (m : T A) (f : A -> T B) vs :
  raises (m vs) -> raises (bind m f vs).
Proof.
  intros [e He]. unfold bind.
  destruct (m vs) as [[r vs1] o1]; simpl in He; subst r.
  now exists e.
Qed.

Lemma raises_bind_r {A B} (m : T A) (f : A -> T B) vs a vs1 o1 :
  m vs = (Ok a, vs1, o1) ->
  raises (f a vs1) -> raises (bind m f vs).
Proof.
  intros Hm [e He]. unfold bind. rewrite Hm.
  destruct (f a vs1) as [[r vs2] o2]; simpl in He; subst r.
  now exists e.
Qed.

(** ** The two loops over the frames and the store *)

Lemma fi_and_li_vars_of (frame : Element) :
  fi_and_li (vars_of frame)
  = (Ok (qualifies frame), vars_of frame, EmptyString).
Proof.
  unfold fi_and_li, bind, load, qualifies, ret; simpl.
  destruct (find "file" frame); simpl; [|reflexivity].
  destruct (find "line" frame); reflexivity.
Qed.

Lemma scan_frames_spec (frames : list Element) (vs : vars) :
  scan_frames frames vs = (Ok tt, scan_vars frames vs, EmptyString).
Proof.
  revert vs. induction frames as [|frame rest IH]; intros vs; simpl.
  - reflexivity.
  - unfold bind, assign_fi_li. fold (vars_of frame).
    rewrite fi_and_li_vars_of.
    destruct (qualifies frame); simpl.
    + reflexivity.
    + now rewrite IH.
Qed.

Lemma body_vars_nonempty (frames : list Element) (vs1 vs2 : vars) :
  frames <> [] -> body_vars frames vs1 = body_vars frames vs2.
Proof.
  destruct frames as [|frame rest]; [congruence|]; intros _; reflexivity.
Qed.

Lemma body_vars_last (frames : list Element) (frame : Element) (vs : vars) :
  body_vars (frames ++ [frame])%list vs = vars_of frame.
Proof. unfold body_vars. now rewrite fold_left_app. Qed.

(** ** One line of the body *)

Lemma qualifies_location (frame : Element) (loc : option (string * string)) :
  decode_location frame = Some loc ->
  qualifies frame = is_some loc.
Proof.
  unfold decode_location, qualifies.
  destruct (find "file" frame) as [fi|], (find "line" frame) as [li|];
    simpl; try (intros [= <-]; reflexivity).
  destruct (text fi), (text li); intros [= <-]; reflexivity.
Qed.

Lemma suffix_of_location (frame : Element) (loc : option (string * string)) :
  decode_location frame = Some loc ->
  suffix_of (vars_of frame) = Ok (suffix_text loc).
Proof.
  unfold decode_location, suffix_of, vars_of; simpl.
  destruct (find "file" frame) as [fi|], (find "line" frame) as [li|];
    simpl; try (intros [= <-]; reflexivity).
  destruct (text fi), (text li); intros [= <-]; reflexivity.
Qed.

(** Evaluate with the equations on the element at hand. *)
Ltac use_eqs :=
  repeat (simpl;
          match goal with
          | H : ?x = _ |- context [?x] => rewrite H
          end);
  simpl.

(** Bring nested concatenations to one shape. *)
Ltac norm_app := repeat first [rewrite append_assoc | progress simpl].

Lemma emit_frame_decoded (frame : Element) (sf : StackFrame) (vs : vars) :
  decode_frame frame = Some sf ->
  emit_frame frame vs = (Ok tt, vars_of frame, frame_line sf).
Proof.
  unfold decode_frame, decode_name, decode_location.
  destruct (find "ip" frame) as [ip|] eqn:Eip; [|discriminate].
  destruct (text ip) as [i|] eqn:Ei; [|discriminate].
  destruct (find "fn" frame) as [fn|] eqn:Efn;
    [destruct (text fn) as [n|] eqn:En; [|discriminate]|];
    (destruct (find "file" frame) as [fi|] eqn:Efi;
     [destruct (find "line" frame) as [li|] eqn:Eli;
      [destruct (text fi) as [f|] eqn:Ef; [|discriminate];
       destruct (text li) as [l|] eqn:El; [|discriminate]|]|]);
    intros [= <-];
    unfold emit_frame, bind, assign_fi_li, fi_and_li, bind, load, eval,
      write, ret, add_text, vars_of, frame_line;
    use_eqs; rewrite ?replace_chain_escape; norm_app; reflexivity.
Qed.

Lemma emit_frame_undecoded (frame : Element) (vs : vars) :
  decode_frame frame = None ->
  exists e, emit_frame frame vs = (Raise e, vars_of frame, EmptyString).
Proof.
  unfold decode_frame, decode_name, decode_location.
  destruct (find "fn" frame) as [fn|] eqn:Efn;
    [destruct (text fn) as [n|] eqn:En|];
    (destruct (find "file" frame) as [fi|] eqn:Efi;
     [destruct (find "line" frame) as [li|] eqn:Eli;
      [destruct (text fi) as [f|] eqn:Ef;
       [destruct (text li) as [l|] eqn:El|]|]|]);
    (destruct (find "ip" frame) as [ip|] eqn:Eip;
     [destruct (text ip) as [i|] eqn:Ei|]);
    intros H; try discriminate H;
    unfold emit_frame, bind, assign_fi_li, fi_and_li, bind, load, eval,
      write, ret, add_text, vars_of;
    use_eqs; eexists; reflexivity.
Qed.

(** ** The body: every frame, in order *)

Lemma emit_frames_decoded (frames : list Element) (sfs : list StackFrame)
  (vs : vars) :
  decode_frames frames = Some sfs ->
  emit_frames frames vs
  = (Ok tt, body_vars frames vs, concat_all (map frame_line sfs)).
Proof.
  revert sfs vs. induction frames as [|frame rest IH]; intros sfs vs; simpl.
  - intros [= <-]. reflexivity.
  - destruct (decode_frame frame) as [sf|] eqn:Hsf; [|discriminate].
    destruct (decode_frames rest) as [sfs'|]; [|discriminate].
    intros [= <-].
    apply bind_ok with (a := tt) (vs1 := vars_of frame).
    + now apply emit_frame_decoded.
    + now apply IH.
Qed.

Lemma emit_frames_undecoded (frames : list Element) (vs : vars) :
  decode_frames frames = None ->
  raises (emit_frames frames vs).
Proof.
  revert vs. induction frames as [|frame rest IH]; intros vs; simpl.
  - discriminate.
  - destruct (decode_frame frame) as [sf|] eqn:Hsf.
    + destruct (decode_frames rest) as [sfs'|]; [discriminate|].
      intros _. eapply raises_bind_r.
      * now apply emit_frame_decoded with (sf := sf).
      * now apply IH.
    + intros _. apply raises_bind_l.
      destruct (emit_frame_undecoded frame vs Hsf) as [e He].
      exists e. now rewrite He.
Qed.

(** ** The name: the first frame with a file and a line *)

Lemma decode_frame_location (frame : Element) (sf : StackFrame) :
  decode_frame frame = Some sf ->
  decode_location frame = Some (location sf).
Proof.
  unfold decode_frame.
  destruct (find "ip" frame) as [ip|]; [|discriminate].
  destruct (text ip); [|discriminate].
  destruct (decode_name frame); [|discriminate].
  destruct (decode_location frame); [|discriminate].
  now intros [= <-].
Qed.

Lemma scan_decoded (frames : list Element) (sfs : list StackFrame)
  (vs : vars) :
  decode_frames frames = Some sfs ->
  frames <> [] ->
  suffix_of (scan_vars frames vs) = Ok (suffix_text (first_location sfs)).
Proof.
  revert sfs vs. induction frames as [|frame rest IH]; intros sfs vs;
    [congruence|].
  simpl. destruct (decode_frame frame) as [sf|] eqn:Hsf; [|discriminate].
  destruct (decode_frames rest) as [sfs'|] eqn:Hrest; [|discriminate].
  intros [= <-] _. simpl.
  pose proof (decode_frame_location _ _ Hsf) as Hloc.
  rewrite (qualifies_location _ _ Hloc).
  destruct (location sf) as [loc|] eqn:Hl; simpl.
  - now rewrite (suffix_of_location _ _ Hloc).
  - destruct rest as [|frame' rest'].
    + injection Hrest as <-. simpl.
      now rewrite (suffix_of_location _ _ Hloc).
    + apply IH; [reflexivity | discriminate].
Qed.

(** ** One error record *)

(** A record that decodes is written as the specification describes,
    with the suffix that the store holds after the scan. *)
Lemma emit_error_decoded (label filename : string) (i : nat)
  (error : Element) (rec : ErrorRecord) (vs : vars) :
  decode_error error = Some rec ->
  emit_error label filename i error vs
  = match suffix_of (scan_vars (frames_of error) vs) with
    | Ok sfx =>
        (Ok tt,
         body_vars (frames_of error) (scan_vars (frames_of error) vs),
         case_text label filename i rec sfx)
    | Raise e => (Raise e, scan_vars (frames_of error) vs, EmptyString)
    end.
Proof.
  unfold decode_error, frames_of.
  destruct (find "kind" error) as [k|] eqn:Ek; [|discriminate].
  destruct (what_of error) as [w|] eqn:Ew; [|discriminate].
  destruct (find "stack" error) as [stack|] eqn:Es; [|discriminate].
  destruct (text k) as [kt|] eqn:Ekt; [|discriminate].
  destruct (text w) as [wt|] eqn:Ewt; [|discriminate].
  destruct (decode_frames (findall "frame" stack)) as [sfs|] eqn:Hfs;
    [|discriminate].
  intros [= <-].
  unfold emit_error, bind. rewrite Ek, Ew, Es. simpl findall_of.
  unfold eval at 1. rewrite scan_frames_spec.
  set (frames := findall "frame" stack) in *.
  set (vs1 := scan_vars frames vs).
  unfold suffix_of, fi_and_li, bind, load, eval, write, ret, add_text,
    case_text, case_name, testcase_start, q.
  destruct vs1 as [[|[fi|]] li]; simpl; try reflexivity.
  - destruct li as [|[li|]]; simpl; try reflexivity.
    + rewrite Ekt; simpl.
      destruct (text fi) as [f|]; simpl; [|reflexivity].
      destruct (text li) as [l|]; simpl; [|reflexivity].
      rewrite ?Ekt, ?Ewt; simpl.
      rewrite (emit_frames_decoded _ _ _ Hfs). norm_app. reflexivity.
    + rewrite ?Ekt, ?Ewt; simpl.
      rewrite (emit_frames_decoded _ _ _ Hfs). norm_app. reflexivity.
  - rewrite ?Ekt, ?Ewt; simpl.
    rewrite (emit_frames_decoded _ _ _ Hfs). norm_app. reflexivity.
Qed.

(** A record that does not decode ends the run with an exception. *)
Lemma emit_error_undecoded (label filename : string) (i : nat)
  (error : Element) (vs : vars) :
  decode_error error = None ->
  raises (emit_error label filename i error vs).
Proof.
  intros H. unfold emit_error, bind.
  unfold decode_error in H.
  destruct (find "stack" error) as [stack|] eqn:Es; simpl findall_of;
    unfold eval at 1; [|eexists; reflexivity].
  rewrite scan_frames_spec.
  set (frames := findall "frame" stack) in *.
  set (vs1 := scan_vars frames vs).
  assert (Hbody : forall vs', decode_frames frames = None ->
                              raises (emit_frames frames vs'))
    by (intros vs'; apply emit_frames_undecoded).
  unfold raises in *.
  unfold fi_and_li, bind, load, eval, write, ret, add_text.
  destruct (find "kind" error) as [k|]; simpl;
    [destruct (text k) as [kt|]; simpl|];
    (destruct vs1 as [[|[fi|]] [|[li|]]]; simpl;
     try (eexists; reflexivity));
    try (destruct (text fi) as [f|]; simpl; try (eexists; reflexivity);
         destruct (text li) as [l|]; simpl; try (eexists; reflexivity));
    (destruct (what_of error) as [w|]; simpl; try (eexists; reflexivity);
     destruct (text w) as [wt|]; simpl; try (eexists; reflexivity);
     destruct (decode_frames frames) as [sfs|]; [discriminate H|];
     match goal with
     | |- context [emit_frames frames ?v] =>
         destruct (Hbody v eq_refl) as [e He];
         destruct (emit_frames frames v) as [[r vs2] o2];
         simpl in He; subst r; eexists; reflexivity
     end).
Qed.

Lemma suffix_of_shape (vs : vars) (sfx : string) :
  suffix_of vs = Ok sfx ->
  sfx = EmptyString \/ exists f l, sfx = ", " ++ f ++ ":" ++ l.
Proof.
  unfold suffix_of.
  destruct (var_fi vs) as [|[fi|]]; try discriminate;
    [|intros [= <-]; now left].
  destruct (var_li vs) as [|[li|]]; try discriminate;
    [|intros [= <-]; now left].
  destruct (text fi) as [f|], (text li) as [l|]; try discriminate.
  intros [= <-]. right. now exists f, l.
Qed.

(** With at least one frame, the name and the body depend on the record
    alone: the suffix is that of the first frame that has a file and a
    line, and the body lists every frame. *)
Lemma emit_error_with_frames (label filename : string) (i : nat)
  (error : Element) (rec : ErrorRecord) (vs : vars) :
  decode_error error = Some rec ->
  callFrames rec <> [] ->
  emit_error label filename i error vs
  = (Ok tt, body_vars (frames_of error) vs,
     case_text label filename i rec
       (suffix_text (first_location (callFrames rec)))).
Proof.
  intros Hdec Hne. rewrite (emit_error_decoded _ _ _ _ _ _ Hdec).
  revert Hdec. unfold decode_error, frames_of.
  destruct (find "kind" error) as [k|]; [|discriminate].
  destruct (what_of error) as [w|]; [|discriminate].
  destruct (find "stack" error) as [stack|]; [|discriminate].
  destruct (text k) as [kt|]; [|discriminate].
  destruct (text w) as [wt|]; [|discriminate].
  destruct (decode_frames (findall "frame" stack)) as [sfs|] eqn:Hfs;
    [|discriminate].
  intros [= <-]. simpl in *.
  assert (Hfr : findall "frame" stack <> []).
  { intros E. rewrite E in Hfs. simpl in Hfs. congruence. }
  rewrite (scan_decoded _ _ vs Hfs Hfr).
  now rewrite (body_vars_nonempty _ (scan_vars _ vs) vs Hfr).
Qed.

Lemma decode_error_kind (error : Element) (rec : ErrorRecord) :
  decode_error error = Some rec ->
  exists k, find "kind" error = Some k /\ text k = Some (kind rec).
Proof.
  unfold decode_error.
  destruct (find "kind" error) as [k|]; [|discriminate].
  destruct (what_of error) as [w|]; [|discriminate].
  destruct (find "stack" error) as [stack|]; [|discriminate].
  destruct (text k) as [kt|] eqn:Ekt; [|discriminate].
  destruct (text w) as [wt|]; [|discriminate].
  destruct (decode_frames (findall "frame" stack)); [|discriminate].
  intros [= <-]. now exists k.
Qed.

Lemma decode_error_description (error : Element) (rec : ErrorRecord) :
  decode_error error = Some rec ->
  exists w, what_of error = Some w /\ text w = Some (description rec).
Proof.
  unfold decode_error.
  destruct (find "kind" error) as [k|]; [|discriminate].
  destruct (what_of error) as [w|]; [|discriminate].
  destruct (find "stack" error) as [stack|]; [|discriminate].
  destruct (text k) as [kt|]; [|discriminate].
  destruct (text w) as [wt|] eqn:Ewt; [|discriminate].
  destruct (decode_frames (findall "frame" stack)); [|discriminate].
  intros [= <-]. now exists w.
Qed.

Lemma decode_error_frames (error : Element) (rec : ErrorRecord) :
  decode_error error = Some rec ->
  decode_frames (frames_of error) = Some (callFrames rec).
Proof.
  unfold decode_error, frames_of.
  destruct (find "kind" error) as [k|]; [|discriminate].
  destruct (what_of error) as [w|]; [|discriminate].
  destruct (find "stack" error) as [stack|]; [|discriminate].
  destruct (text k) as [kt|]; [|discriminate].
  destruct (text w) as [wt|]; [|discriminate].
  destruct (decode_frames (findall "frame" stack)); [|discriminate].
  now intros [= <-].
Qed.

Lemma record_ok_decoded (error : Element) :
  record_ok error = true ->
  exists rec, decode_error error = Some rec /\ callFrames rec <> [].
Proof.
  unfold record_ok. destruct (decode_error error) as [rec|]; [|discriminate].
  intros H. exists rec. split; [reflexivity|].
  intros E. rewrite E in H. discriminate.
Qed.

(** ** The loop over the records *)

Lemma bind_ok_inv {A B} (m : T A) (f : A -> T B) vs b vs' o :
  bind m f vs = (Ok b, vs', o) ->
  exists a vs1 o1 o2,
    m vs = (Ok a, vs1, o1) /\ f a vs1 = (Ok b, vs', o2) /\ o = o1 ++ o2.
Proof.
  unfold bind. destruct (m vs) as [[[a|e] vs1] o1]; [|discriminate].
  destruct (f a vs1) as [[r vs2] o2] eqn:Hf. intros [= -> -> <-].
  now exists a, vs1, o1, o2.
Qed.

Lemma emit_error_ok_inv (label filename : string) (i : nat)
  (error : Element) (vs vs' : vars) (o : string) :
  emit_error label filename i error vs = (Ok tt, vs', o) ->
  case_for label filename (i, error) o.
Proof.
  intros H. destruct (decode_error error) as [rec|] eqn:Hdec.
  - rewrite (emit_error_decoded _ _ _ _ _ _ Hdec) in H.
    destruct (suffix_of _) as [sfx|e] eqn:Hs; [|discriminate].
    injection H as _ <-. exists rec, sfx. simpl.
    split; [assumption|]. split; [now apply decode_error_kind|].
    split; [|reflexivity]. eapply suffix_of_shape; eassumption.
  - destruct (emit_error_undecoded label filename i error vs Hdec) as [e He].
    rewrite H in He. discriminate.
Qed.

Lemma emit_errors_ok_inv (label filename : string) (errors : list Element) :
  forall (n : nat) (vs vs' : vars) (o : string),
    emit_errors label filename n errors vs = (Ok tt, vs', o) ->
    exists cases,
      o = concat_all cases /\
      Forall2 (case_for label filename)
        (combine (seq (n + 1) (List.length errors)) errors) cases.
Proof.
  induction errors as [|error rest IH]; intros n vs vs' o; simpl.
  - intros [= _ <-]. exists []. split; [reflexivity | constructor].
  - intros H. apply bind_ok_inv in H.
    destruct H as ([] & vs1 & o1 & o2 & H1 & H2 & ->).
    apply emit_error_ok_inv in H1.
    apply IH in H2. destruct H2 as (cases & -> & Hall).
    exists (o1 :: cases). split; [reflexivity|].
    constructor; [assumption|].
    now replace (S (n + 1)) with (n + 1 + 1) by lia.
Qed.

Lemma emit_errors_records_ok (label filename : string)
  (errors : list Element) :
  forallb record_ok errors = true ->
  forall (n : nat) (vs : vars),
    exists vs' o, emit_errors label filename n errors vs = (Ok tt, vs', o).
Proof.
  induction errors as [|error rest IH]; simpl; intros Hall n vs.
  - now exists vs, EmptyString.
  - apply andb_true_iff in Hall. destruct Hall as [Hok Hrest].
    destruct (record_ok_decoded _ Hok) as (rec & Hdec & Hne).
    destruct (IH Hrest (n + 1) (body_vars (frames_of error) vs))
      as (vs' & o & Ho).
    eexists vs', _. eapply bind_ok.
    + now apply emit_error_with_frames with (rec := rec).
    + exact Ho.
Qed.

(** ** One output file *)

Lemma label_plural (skip_tests : bool) :
  (if skip_tests then "skipped" else "error")
  ++ (if skip_tests then EmptyString else "s")
  = count_attribute skip_tests.
Proof. destruct skip_tests; reflexivity. Qed.

Lemma transcode_no_errors (skip_tests : bool) (filename : string)
  (doc : Element) (vs : vars) :
  findall_descendants "error" doc = [] ->
  transcode skip_tests filename doc vs
  = (Ok tt, vs,
     xml_decl ++ suite_open skip_tests "1" "0" ++ passing_case filename
     ++ suite_close).
Proof.
  intros H. unfold transcode. rewrite H. simpl.
  unfold bind, write, xml_decl, suite_open, passing_case, suite_close.
  destruct skip_tests; norm_app; reflexivity.
Qed.

Lemma transcode_errors (skip_tests : bool) (filename : string)
  (doc : Element) (vs : vars) :
  let errors := findall_descendants "error" doc in
  let n := str (List.length errors) in
  errors <> [] ->
  transcode skip_tests filename doc vs
  = match emit_errors (status_label skip_tests) filename 0 errors vs with
    | (Ok _, vs', o) =>
        (Ok tt, vs',
         xml_decl ++ suite_open skip_tests n n ++ o ++ suite_close)
    | (Raise e, vs', o) =>
        (Raise e, vs', xml_decl ++ suite_open skip_tests n n ++ o)
    end.
Proof.
  intros errors n Hne. unfold transcode. fold errors.
  destruct errors as [|error rest] eqn:E; [congruence|].
  change (List.length (error :: rest) =? 0)%nat with false. cbv iota.
  unfold bind at 1 2 3. unfold write at 1 2 3.
  fold (status_label skip_tests).
  destruct (emit_errors (status_label skip_tests) filename 0 (error :: rest)
              vs) as [[[[]|e] vs'] o];
    unfold xml_decl, suite_open, suite_close; subst n;
    rewrite <- label_plural; destruct skip_tests; norm_app; reflexivity.
Qed.

(** ** The run *)

Section RunFacts.

Variable parse : string -> option Element.
Variable skip_tests : bool.
Variable output_directory : string.

Local Abbreviation cfg_convert := (convert parse skip_tests output_directory).
Local Abbreviation cfg_files := (for_files parse skip_tests output_directory).
Local Abbreviation cfg_dirs := (for_dirs parse skip_tests output_directory).

(** Every path given to the parser was read before or comes from the
    directory at hand. *)
Lemma convert_parsed (subdir filename : string) (w : world) :
  w_parsed (snd (cfg_convert subdir filename w))
  = join subdir filename :: w_parsed w.
Proof.
  unfold convert.
  destruct (parse (join subdir filename)) as [doc|]; [|reflexivity].
  destruct (transcode _ _ _ _) as [[r vs] o]. reflexivity.
Qed.



(** An exception in one file ends the loops. *)
Lemma for_files_raises (subdir filename : string) (files : list string) :
  In filename files ->
  contains "xml" filename = true ->
  (forall w, exists e, fst (cfg_convert subdir filename w) = Raise e) ->
  forall w, exists e, fst (cfg_files subdir files w) = Raise e.
Proof.
  intros Hin Hx Hbad.
  induction files as [|f rest IH]; [contradiction|]. intros w. simpl.
  destruct Hin as [->|Hin].
  - rewrite Hx. destruct (Hbad w) as [e He].
    destruct (cfg_convert subdir filename w) as [[[]|e'] w']; simpl in He;
      [discriminate|]. now exists e'.
  - destruct (contains "xml" f); [|now apply IH].
    destruct (cfg_convert subdir f w) as [[[]|e'] w'].
    + now apply IH.
    + now exists e'.
Qed.

Lemma for_dirs_raises (subdir : string) (dirs files : list string)
  (entries : list (string * list string * list string)) :
  In (subdir, dirs, files) entries ->
  (basename subdir =? basename output_directory) = false ->
  (forall w, exists e, fst (cfg_files subdir files w) = Raise e) ->
  forall w, exists e, fst (cfg_dirs entries w) = Raise e.
Proof.
  intros Hin Hb Hbad.
  induction entries as [|[[s d] f] rest IH]; [contradiction|]. intros w.
  simpl. destruct Hin as [[= -> -> ->]|Hin].
  - rewrite Hb. destruct (Hbad w) as [e He].
    destruct (cfg_files subdir files w) as [[[]|e'] w']; simpl in He;
      [discriminate|]. now exists e'.
  - destruct (basename s =? basename output_directory); [now apply IH|].
    destruct (cfg_files s f w) as [[[]|e'] w'].
    + now apply IH.
    + now exists e'.
Qed.

End RunFacts.

Lemma emit_errors_raises (label filename : string) (error : Element)
  (errors : list Element) :
  In error errors ->
  decode_error error = None ->
  forall (n : nat) (vs : vars),
    raises (emit_errors label filename n errors vs).
Proof.
  intros Hin Hdec.
  induction errors as [|e rest IH]; [contradiction|]. intros n vs. simpl.
  destruct (emit_error label filename (n + 1) e vs) as [[[[]|x] vs1] o1]
    eqn:He.
  - destruct Hin as [->|Hin].
    + pose proof (emit_error_undecoded label filename (n + 1) error vs Hdec)
        as [x Hx].
      rewrite He in Hx. discriminate.
    + eapply raises_bind_r; [exact He | now apply IH].
  - apply raises_bind_l. rewrite He. now exists x.
Qed.

Lemma transcode_raises (skip_tests : bool) (filename : string)
  (doc error : Element) (vs : vars) :
  In error (findall_descendants "error" doc) ->
  decode_error error = None ->
  raises (transcode skip_tests filename doc vs).
Proof.
  intros Hin Hdec.
  assert (Hne : findall_descendants "error" doc <> [])
    by (intros E; rewrite E in Hin; contradiction).
  rewrite (transcode_errors skip_tests filename doc vs Hne).
  destruct (emit_errors_raises (status_label skip_tests) filename error _
              Hin Hdec 0 vs) as [e He].
  destruct (emit_errors _ _ _ _ _) as [[r vs'] o]. simpl in He. subst r.
  now exists e.
Qed.

Lemma missing_kind_undecoded (error : Element) :
  find "kind" error = None -> decode_error error = None.
Proof. intros H. unfold decode_error. now rewrite H. Qed.

Lemma missing_description_undecoded (error : Element) :
  what_of error = None -> decode_error error = None.
Proof.
  intros H. unfold decode_error. rewrite H.
  now destruct (find "kind" error).
Qed.

Lemma transcode_ok_inv (skip_tests : bool) (filename : string)
  (doc : Element) (vs vs' : vars) (o : string) :
  let errors := findall_descendants "error" doc in
  let n := List.length errors in
  errors <> [] ->
  transcode skip_tests filename doc vs = (Ok tt, vs', o) ->
  exists cases,
    List.length cases = n /\
    o = xml_decl ++ suite_open skip_tests (str n) (str n)
        ++ concat_all cases ++ suite_close /\
    Forall2 (case_for (status_label skip_tests) filename)
      (combine (seq 1 n) errors) cases.
Proof.
  intros errors n Hne H.
  rewrite (transcode_errors skip_tests filename doc vs Hne) in H.
  fold errors in H.
  destruct (emit_errors (status_label skip_tests) filename 0 errors vs)
    as [[[[]|e] vs1] o1] eqn:He; [|discriminate].
  injection H as _ <-.
  apply emit_errors_ok_inv in He. destruct He as (cases & -> & Hall).
  exists cases. split; [|split; [reflexivity | exact Hall]].
  apply Forall2_length in Hall. rewrite <- Hall.
  rewrite length_combine, length_seq. apply Nat.min_id.
Qed.

Lemma transcode_records_ok (skip_tests : bool) (filename : string)
  (doc : Element) (vs : vars) :
  forallb record_ok (findall_descendants "error" doc) = true ->
  exists vs' o, transcode skip_tests filename doc vs = (Ok tt, vs', o).
Proof.
  intros Hall.
  destruct (findall_descendants "error" doc) as [|error rest] eqn:E.
  - eexists _, _. now apply transcode_no_errors.
  - assert (Hne : findall_descendants "error" doc <> [])
      by (rewrite E; discriminate).
    rewrite (transcode_errors skip_tests filename doc vs Hne). rewrite E.
    destruct (emit_errors_records_ok (status_label skip_tests) filename
                (error :: rest) Hall 0 vs) as (vs' & o & ->).
    now eexists _, _.
Qed.

(** * The claims *)

(** C3. A report without error nodes gives a [testsuite] with
    [tests="1"], the count attribute at ["0"], and one self-closing
    [testcase] named by the bare file name: no status child, no body. *)
Theorem zero_errors_passing_case (parse : string -> option Element)
  (skip_tests : bool) (output_directory subdir filename : string)
  (doc : Element) (w : world) :
  parse (join subdir filename) = Some doc ->
  findall_descendants "error" doc = [] ->
  convert parse skip_tests output_directory subdir filename w
  = (Ok tt,
     {| w_vars := w_vars w;
        w_parsed := join subdir filename :: w_parsed w;
        w_files :=
          (output_path output_directory filename,
           "<?xml version=" ++ q "1.0" ++ " encoding=" ++ q "UTF-8" ++ "?>"
           ++ nl
           ++ "<testsuite name=" ++ q "valgrind" ++ " tests=" ++ q "1" ++ " "
           ++ count_attribute skip_tests ++ "=" ++ q "0" ++ ">" ++ nl
           ++ "    <testcase classname=" ++ q "valgrind-memcheck"
           ++ " name=" ++ q filename ++ "/>" ++ nl
           ++ "</testsuite>" ++ nl)
          :: w_files w |}).
Proof.
  intros Hp Hn. unfold convert. rewrite Hp.
  rewrite (transcode_no_errors skip_tests filename doc (w_vars w) Hn).
  unfold output_path, xml_decl, suite_open, passing_case, suite_close.
  do 3 f_equal. norm_app. reflexivity.
Qed.

Lemma zero_errors_passing_case_witness :
  parse_any (join "in" "a.xml") = Some (report []) /\
  findall_descendants "error" (report []) = [] /\
  w_files (snd (convert parse_any true "out" "in" "a.xml" initial))
  = [("out/a.xml",
      xml_decl ++ suite_open true "1" "0" ++ passing_case "a.xml"
      ++ suite_close)].
Proof.
  split; [reflexivity|]. split; [reflexivity|].
  rewrite (zero_errors_passing_case parse_any true "out" "in" "a.xml"
             (report []) initial); reflexivity.
Defined.

(** C7. A file that does not parse as markup is passed over: nothing is
    written for it, no exception is raised, the store is unchanged, and
    the loop goes on with the files that remain. *)
Theorem malformed_input_skipped (parse : string -> option Element)
  (skip_tests : bool) (output_directory subdir filename : string)
  (rest : list string) (w : world) :
  contains "xml" filename = true ->
  parse (join subdir filename) = None ->
  let w' := {| w_vars := w_vars w;
               w_parsed := join subdir filename :: w_parsed w;
               w_files := w_files w |} in
  convert parse skip_tests output_directory subdir filename w = (Ok tt, w')
  /\ for_files parse skip_tests output_directory subdir (filename :: rest) w
     = for_files parse skip_tests output_directory subdir rest w'.
Proof.
  intros Hx Hp w'.
  assert (Hc : convert parse skip_tests output_directory subdir filename w
               = (Ok tt, w')).
  { unfold convert. now rewrite Hp. }
  split; [exact Hc|]. simpl. now rewrite Hx, Hc.
Qed.

Lemma malformed_input_skipped_witness :
  contains "xml" "bad.xml" = true /\
  parse_mixed (join "in" "bad.xml") = None /\
  for_files parse_mixed true "out" "in" ["bad.xml"; "good.xml"] initial
  = for_files parse_mixed true "out" "in" ["good.xml"]
      {| w_vars := unbound; w_parsed := ["in/bad.xml"]; w_files := [] |}.
Proof.
  split; [reflexivity|]. split; [reflexivity|].
  apply (malformed_input_skipped parse_mixed true "out" "in" "bad.xml"
           ["good.xml"] initial); reflexivity.
Defined.

(** C8. When a file that the run converts holds an error record without
    a [kind], transcoding that file raises, whatever the store, and the
    exception ends the whole run. *)
Theorem missing_kind_is_fatal (parse : string -> option Element)
  (skip_tests : bool) (input_directory output_directory : string)
  (tree : Dir) (subdir : string) (dirs files : list string)
  (filename : string) (doc error : Element) :
  In (subdir, dirs, files) (walk input_directory tree) ->
  (basename subdir =? basename output_directory) = false ->
  In filename files ->
  contains "xml" filename = true ->
  parse (join subdir filename) = Some doc ->
  In error (findall_descendants "error" doc) ->
  find "kind" error = None ->
  (forall vs, exists e, fst (fst (transcode skip_tests filename doc vs))
                        = Raise e)
  /\ exists e,
       fst (run parse skip_tests input_directory output_directory tree)
       = Raise e.
Proof.
  intros Hw Hb Hf Hx Hp He Hk.
  pose proof (missing_kind_undecoded error Hk) as Hdec.
  assert (Ht : forall vs, exists e,
             fst (fst (transcode skip_tests filename doc vs)) = Raise e)
    by (intros vs; exact (transcode_raises skip_tests filename doc error vs
                            He Hdec)).
  split; [exact Ht|].
  unfold run. eapply for_dirs_raises; [exact Hw | exact Hb |].
  eapply for_files_raises; [exact Hf | exact Hx |].
  intros w. unfold convert. rewrite Hp.
  destruct (Ht (w_vars w)) as [e Hr].
  destruct (transcode _ _ _ _) as [[r vs] o]. simpl in *. now exists e.
Qed.

Lemma missing_kind_is_fatal_witness :
  In error_no_kind
    (findall_descendants "error" (report [error_xwhat; error_no_kind])) /\
  find "kind" error_no_kind = None /\
  exists e,
    fst (run parse_faulty false "in" "out" faulty_reports) = Raise e.
Proof.
  split; [right; left; reflexivity|]. split; [reflexivity|].
  exact (proj2
           (missing_kind_is_fatal parse_faulty false "in" "out"
              faulty_reports "in" [] ["nokind.xml"; "good.xml"]
              "nokind.xml" (report [error_xwhat; error_no_kind])
              error_no_kind (or_introl eq_refl) eq_refl
              (or_introl eq_refl) eq_refl eq_refl
              (or_intror (or_introl eq_refl)) eq_refl)).
Defined.




(** C2, as stated, fails on a report with a record that faults: with
    three error nodes of which the second has no description, the
    header says [tests="3"], the first test case is written, the second
    is cut after the opening of its status child, and neither the third
    nor the closing tag follows. *)
Lemma faulting_record_breaks_count :
  List.length
    (findall_descendants "error"
       (report [error_xwhat; error_no_description; error_xwhat])) = 3
  /\ transcode false "r.xml"
       (report [error_xwhat; error_no_description; error_xwhat]) unbound
     = (Raise AttributeError, vars_of frame_a,
        xml_decl ++ suite_open false "3" "3"
        ++ case_text "error" "r.xml" 1
             (MkError "Leak_PossiblyLost" "16 bytes possibly lost"
                [MkFrame "0x3" None (Some ("b.c", "20"))])
             ", b.c:20"
        ++ "    <testcase classname=" ++ q "valgrind-memcheck" ++ " name="
        ++ q "r.xml 2 (InvalidRead, a.c:10)" ++ ">" ++ nl
        ++ "        <error type=" ++ q "InvalidRead" ++ ">" ++ nl).
Proof. split; reflexivity. Qed.

(** C2, amended.  A report with N >= 1 error nodes: when the
    transcoding ends normally, the output is the declaration, a [testsuite] with
    [tests="N"], N test cases and the closing tag; the i-th case is for
    the i-th error node in document order and its name is made of the
    file name, i, and the text of the record's [kind].  Transcoding ends
    normally at least whenever every record decodes and has a frame. *)
Theorem count_invariant (skip_tests : bool) (filename : string)
  (doc : Element) (vs : vars) :
  let errors := findall_descendants "error" doc in
  let n := List.length errors in
  1 <= n ->
  (forallb record_ok errors = true ->
   exists vs' o, transcode skip_tests filename doc vs = (Ok tt, vs', o))
  /\ (forall vs' o,
         transcode skip_tests filename doc vs = (Ok tt, vs', o) ->
         exists cases,
           List.length cases = n /\
           o = xml_decl
               ++ "<testsuite name=" ++ q "valgrind" ++ " tests="
               ++ q (str n) ++ " " ++ count_attribute skip_tests ++ "="
               ++ q (str n) ++ ">" ++ nl
               ++ concat_all cases ++ "</testsuite>" ++ nl /\
           Forall2 (case_for (status_label skip_tests) filename)
             (combine (seq 1 n) errors) cases).
Proof.
  intros errors n Hn. split.
  - apply transcode_records_ok.
  - intros vs' o H.
    assert (Hne : errors <> [])
      by (intros E; subst n; rewrite E in Hn; simpl in Hn; lia).
    destruct (transcode_ok_inv skip_tests filename doc vs vs' o Hne H)
      as (cases & Hlen & -> & Hall).
    exists cases. split; [exact Hlen|]. split; [|exact Hall].
    unfold suite_open, suite_close. norm_app. reflexivity.
Qed.

Lemma count_invariant_witness :
  1 <= List.length
         (findall_descendants "error"
            (report [error_three_frames; error_xwhat])) /\
  forallb record_ok
    (findall_descendants "error" (report [error_three_frames; error_xwhat]))
  = true /\
  exists vs' o cases,
    transcode true "r.xml" (report [error_three_frames; error_xwhat])
      unbound
    = (Ok tt, vs', o) /\
    List.length cases = 2 /\
    o = xml_decl ++ suite_open true "2" "2" ++ concat_all cases
        ++ suite_close.
Proof.
  assert (H : 1 <= List.length
                     (findall_descendants "error"
                        (report [error_three_frames; error_xwhat])))
    by (simpl; lia).
  split; [exact H|]. split; [reflexivity|].
  destruct (count_invariant true "r.xml"
              (report [error_three_frames; error_xwhat]) unbound H)
    as [Hends Hshape].
  destruct (Hends eq_refl) as (vs' & o & Ho).
  destruct (Hshape vs' o Ho) as (cases & Hlen & Ho' & _).
  exists vs', o, cases. split; [exact Ho|]. split; [exact Hlen|].
  exact Ho'.
Defined.

(** C5. In skip mode the count attribute of the [testsuite] is named
    [skipped] and the status child of every test case is tagged
    [skipped]; otherwise they are [errors] and [error].  In both modes
    the attribute holds the number of error nodes, also when there is
    none.  The header is written whatever happens afterwards. *)
Theorem skip_mode_labels (skip_tests : bool) (filename : string)
  (doc : Element) (vs : vars) :
  let errors := findall_descendants "error" doc in
  let n := List.length errors in
  let header :=
    xml_decl
    ++ "<testsuite name=" ++ q "valgrind" ++ " tests="
    ++ q (if (n =? 0)%nat then "1" else str n) ++ " "
    ++ (if skip_tests then "skipped" else "errors") ++ "="
    ++ q (str n) ++ ">" ++ nl in
  (exists rest, snd (transcode skip_tests filename doc vs) = header ++ rest)
  /\ (forall vs' o,
         transcode skip_tests filename doc vs = (Ok tt, vs', o) ->
         exists cases,
           o = header ++ concat_all cases ++ "</testsuite>" ++ nl /\
           (n = 0 -> cases = [passing_case filename]) /\
           (n <> 0 ->
            Forall2
              (case_for (if skip_tests then "skipped" else "error") filename)
              (combine (seq 1 n) errors) cases)).
Proof.
  intros errors n header. subst header n errors.
  destruct (findall_descendants "error" doc) as [|error rest] eqn:E.
  - pose proof (transcode_no_errors skip_tests filename doc vs E) as Ht.
    match goal with
    | |- (exists r, _ = ?h ++ r) /\ _ =>
        assert (Ho : xml_decl ++ suite_open skip_tests "1" "0"
                     ++ passing_case filename ++ suite_close
                     = h ++ concat_all [passing_case filename]
                       ++ "</testsuite>" ++ nl)
    end.
    { unfold suite_open, suite_close, count_attribute.
      destruct skip_tests; norm_app; reflexivity. }
    split.
    + exists (concat_all [passing_case filename] ++ "</testsuite>" ++ nl).
      rewrite Ht. exact Ho.
    + intros vs' o H. rewrite Ht in H. injection H as _ <-.
      exists [passing_case filename]. split; [exact Ho|].
      split; [reflexivity|]. intros Hn. now contradiction Hn.
  - assert (Hne : findall_descendants "error" doc <> [])
      by (rewrite E; discriminate).
    set (n := List.length (error :: rest)).
    change (n =? 0)%nat with false. cbv iota.
    match goal with
    | |- (exists r, _ = ?h ++ r) /\ _ =>
        assert (Hh : h = xml_decl ++ suite_open skip_tests (str n) (str n))
    end.
    { unfold suite_open, count_attribute.
      destruct skip_tests; rewrite ?append_assoc; reflexivity. }
    rewrite Hh. clear Hh. split.
    + rewrite (transcode_errors skip_tests filename doc vs Hne).
      rewrite E. fold n.
      destruct (emit_errors _ _ _ _ _) as [[[[]|e] vs1] o1]; cbn [snd];
        [exists (o1 ++ suite_close) | exists o1];
        now rewrite append_assoc.
    + intros vs' o H.
      destruct (transcode_ok_inv skip_tests filename doc vs vs' o Hne H)
        as (cases & Hlen & -> & Hall).
      rewrite E in Hall. fold n in Hall.
      exists cases. split; [|split].
      * rewrite E. fold n. rewrite ?append_assoc. reflexivity.
      * subst n. discriminate.
      * intros _. exact Hall.
Qed.

Lemma skip_mode_labels_witness :
  exists vs' cases,
    transcode true "r.xml" (report [error_xwhat]) unbound
    = (Ok tt, vs',
       xml_decl
       ++ "<testsuite name=" ++ q "valgrind" ++ " tests=" ++ q "1" ++ " "
       ++ "skipped" ++ "=" ++ q "1" ++ ">" ++ nl
       ++ concat_all cases ++ "</testsuite>" ++ nl).
Proof.
  destruct (proj2 (skip_mode_labels true "r.xml" (report [error_xwhat])
                     unbound) (vars_of frame_b) _ eq_refl)
    as (cases & Ho & _).
  exists (vars_of frame_b), cases.
  exact (f_equal (fun x => (Ok tt, vars_of frame_b, x)) Ho).
Defined.

(** C4. The function name, and nothing else, is escaped: the line of a
    frame carries the instruction pointer, the file and the line as
    they are and the function name with [&], [<] and [>] replaced, every
    other character kept; the kind, the description and the file name
    go into the test case as they are. *)
Theorem function_name_escaping :
  (forall frame sf vs,
      decode_frame frame = Some sf ->
      functionName sf
      = match find "fn" frame with Some fn => text fn | None => None end
      /\ emit_frame frame vs
         = (Ok tt, vars_of frame,
            "  " ++ instructionPointer sf ++ ": "
            ++ escape (name_or_unknown (functionName sf))
            ++ match location sf with
               | Some (f, l) => " (" ++ f ++ ":" ++ l ++ ")"
               | None => EmptyString
               end
            ++ nl))
  /\ (forall c s,
         escape (String c s)
         = (if Ascii.eqb c "&" then "&amp;"
            else if Ascii.eqb c "<" then "&lt;"
            else if Ascii.eqb c ">" then "&gt;"
            else String c EmptyString) ++ escape s)
  /\ escape "A<B&C>" = "A&lt;B&amp;C&gt;"
  /\ snd (emit_frame frame_a unbound)
     = "  0x2: A&lt;B&amp;C&gt; (a.c:10)" ++ nl
  /\ (forall label filename i error rec vs,
         decode_error error = Some rec ->
         callFrames rec <> [] ->
         snd (emit_error label filename i error vs)
         = "    <testcase classname=" ++ q "valgrind-memcheck" ++ " name="
           ++ q (filename ++ " " ++ str i ++ " (" ++ kind rec
                 ++ suffix_text (first_location (callFrames rec)) ++ ")")
           ++ ">" ++ nl
           ++ "        <" ++ label ++ " type=" ++ q (kind rec) ++ ">" ++ nl
           ++ "  " ++ description rec ++ nl ++ nl
           ++ concat_all (map frame_line (callFrames rec))
           ++ "        </" ++ label ++ ">" ++ nl
           ++ "    </testcase>" ++ nl).
Proof.
  split; [|split; [|split; [|split]]].
  - intros frame sf vs H. split.
    + revert H. unfold decode_frame, decode_name.
      destruct (find "ip" frame) as [ip|]; [|discriminate].
      destruct (text ip); [|discriminate].
      destruct (find "fn" frame) as [fn|];
        [destruct (text fn); [|discriminate]|];
        (destruct (decode_location frame); [|discriminate]);
        now intros [= <-].
    + exact (emit_frame_decoded frame sf vs H).
  - reflexivity.
  - reflexivity.
  - reflexivity.
  - intros label filename i error rec vs Hdec Hne.
    now rewrite (emit_error_with_frames label filename i error rec vs
                   Hdec Hne).
Qed.

Lemma function_name_escaping_witness :
  decode_frame frame_a
  = Some (MkFrame "0x2" (Some "A<B&C>") (Some ("a.c", "10")))
  /\ emit_frame frame_a unbound
     = (Ok tt, vars_of frame_a, "  0x2: A&lt;B&amp;C&gt; (a.c:10)" ++ nl).
Proof.
  split; [reflexivity|].
  exact (proj2
           (proj1 function_name_escaping frame_a
              (MkFrame "0x2" (Some "A<B&C>") (Some ("a.c", "10")))
              unbound eq_refl)).
Defined.

(** C6, as stated, fails: a record with neither [what] nor
    [xwhat/text] is not emitted; dereferencing the missing description
    raises and leaves the test case unfinished. *)
Lemma missing_description_faults :
  what_of error_no_description = None
  /\ transcode false "r.xml" (report [error_no_description]) unbound
     = (Raise AttributeError, vars_of frame_a,
        xml_decl ++ suite_open false "1" "1"
        ++ "    <testcase classname=" ++ q "valgrind-memcheck" ++ " name="
        ++ q "r.xml 1 (InvalidRead, a.c:10)" ++ ">" ++ nl
        ++ "        <error type=" ++ q "InvalidRead" ++ ">" ++ nl).
Proof. split; reflexivity. Qed.

Lemma emit_error_no_description (label filename : string) (i : nat)
  (error k stack : Element) (kt sfx : string) (vs : vars) :
  what_of error = None ->
  find "kind" error = Some k -> text k = Some kt ->
  find "stack" error = Some stack ->
  suffix_of (scan_vars (findall "frame" stack) vs) = Ok sfx ->
  emit_error label filename i error vs
  = (Raise AttributeError, scan_vars (findall "frame" stack) vs,
     "    <testcase classname=" ++ q "valgrind-memcheck" ++ " name="
     ++ q (case_name filename i kt sfx) ++ ">" ++ nl
     ++ "        <" ++ label ++ " type=" ++ q kt ++ ">" ++ nl).
Proof.
  intros Hw Hk Hkt Hs.
  unfold emit_error, bind. rewrite Hk, Hw, Hs. simpl findall_of.
  unfold eval at 1. rewrite scan_frames_spec.
  set (vs1 := scan_vars (findall "frame" stack) vs).
  unfold suffix_of, fi_and_li, bind, load, eval, write, ret, add_text,
    case_name, testcase_start, q.
  destruct vs1 as [[|[fi|]] li]; simpl; try discriminate.
  - destruct li as [|[li|]]; simpl; try discriminate.
    + rewrite Hkt; simpl.
      destruct (text fi) as [f|]; simpl; [|discriminate].
      destruct (text li) as [l|]; simpl; [|discriminate].
      intros [= <-]. norm_app. reflexivity.
    + intros [= <-]. rewrite Hkt; simpl. norm_app. reflexivity.
  - intros [= <-]. rewrite Hkt; simpl. norm_app. reflexivity.
Qed.

(** C6, amended.  The description is the text of [what] when the record
    has one, and of the first [xwhat/text] otherwise; a record that is
    emitted carries that text after the opening of its status child.
    When neither is there, emitting the record always raises.  When,
    besides, the record has a [kind] with text and a [stack] and the
    suffix of the name can be formed, the exception is the
    [AttributeError] of line 107, raised after the opening lines of the
    test case and of its status child were written, and nothing else of
    the record is written. *)
Theorem description_fallback (label filename : string) (i : nat)
  (error : Element) (vs : vars) :
  (forall w, find "what" error = Some w -> what_of error = Some w)
  /\ (find "what" error = None ->
      what_of error = find2 "xwhat" "text" error)
  /\ (forall vs' o,
         emit_error label filename i error vs = (Ok tt, vs', o) ->
         exists rec sfx w,
           decode_error error = Some rec /\
           what_of error = Some w /\
           text w = Some (description rec) /\
           o = "    <testcase classname=" ++ q "valgrind-memcheck"
               ++ " name=" ++ q (case_name filename i (kind rec) sfx)
               ++ ">" ++ nl
               ++ "        <" ++ label ++ " type=" ++ q (kind rec) ++ ">"
               ++ nl
               ++ "  " ++ description rec ++ nl ++ nl
               ++ concat_all (map frame_line (callFrames rec))
               ++ "        </" ++ label ++ ">" ++ nl
               ++ "    </testcase>" ++ nl)
  /\ (what_of error = None ->
      exists e, fst (fst (emit_error label filename i error vs)) = Raise e)
  /\ (what_of error = None ->
      forall k kt stack sfx,
        find "kind" error = Some k -> text k = Some kt ->
        find "stack" error = Some stack ->
        suffix_of (scan_vars (findall "frame" stack) vs) = Ok sfx ->
        emit_error label filename i error vs
        = (Raise AttributeError, scan_vars (findall "frame" stack) vs,
           "    <testcase classname=" ++ q "valgrind-memcheck" ++ " name="
           ++ q (case_name filename i kt sfx) ++ ">" ++ nl
           ++ "        <" ++ label ++ " type=" ++ q kt ++ ">" ++ nl)).
Proof.
  split; [|split; [|split; [|split]]].
  - intros w H. unfold what_of. now rewrite H.
  - intros H. unfold what_of. now rewrite H.
  - intros vs' o H. apply emit_error_ok_inv in H.
    destruct H as (rec & sfx & Hdec & _ & _ & ->). simpl in Hdec.
    destruct (decode_error_description error rec Hdec) as (w & Hw & Ht).
    exists rec, sfx, w. repeat split; assumption.
  - intros H. apply emit_error_undecoded.
    now apply missing_description_undecoded.
  - intros Hw k kt stack sfx Hk Hkt Hs Hsfx.
    now apply emit_error_no_description with (k := k).
Qed.

Lemma description_fallback_witness :
  find "what" error_xwhat = None /\
  what_of error_xwhat = Some (leaf "text" "16 bytes possibly lost") /\
  what_of error_no_description = None /\
  emit_error "error" "r.xml" 1 error_no_description unbound
  = (Raise AttributeError, vars_of frame_a,
     "    <testcase classname=" ++ q "valgrind-memcheck" ++ " name="
     ++ q "r.xml 1 (InvalidRead, a.c:10)" ++ ">" ++ nl
     ++ "        <error type=" ++ q "InvalidRead" ++ ">" ++ nl).
Proof.
  split; [reflexivity|].
  split.
  - exact (proj1 (proj2 (description_fallback "error" "r.xml" 1 error_xwhat
                           unbound)) eq_refl).
  - split; [reflexivity|].
    exact (proj2 (proj2 (proj2 (proj2
             (description_fallback "error" "r.xml" 1 error_no_description
                unbound)))) eq_refl
             (leaf "kind" "InvalidRead") "InvalidRead"
             (Elem "stack" None [frame_a]) ", a.c:10"
             eq_refl eq_refl eq_refl eq_refl).
Defined.

(** The tie-break example of the specification: the first frame with
    both a file and a line gives the suffix, and the three frames are
    all in the body. *)
Example frame_tie_break :
  snd (emit_error "error" "r.xml" 1 error_three_frames unbound)
  = "    <testcase classname=" ++ q "valgrind-memcheck" ++ " name="
    ++ q "r.xml 1 (Leak_DefinitelyLost, a.c:10)" ++ ">" ++ nl
    ++ "        <error type=" ++ q "Leak_DefinitelyLost" ++ ">" ++ nl
    ++ "  8 bytes lost" ++ nl ++ nl
    ++ "  0x1: unknown function name" ++ nl
    ++ "  0x2: A&lt;B&amp;C&gt; (a.c:10)" ++ nl
    ++ "  0x3: unknown function name (b.c:20)" ++ nl
    ++ "        </error>" ++ nl
    ++ "    </testcase>" ++ nl.
Proof. reflexivity. Qed.

(** With frames of which none has a file and a line, the name ends
    after the kind. *)
Example no_qualifying_frame :
  snd (emit_error "error" "r.xml" 3 error_bare_frames (vars_of frame_a))
  = "    <testcase classname=" ++ q "valgrind-memcheck" ++ " name="
    ++ q "r.xml 3 (UninitValue)" ++ ">" ++ nl
    ++ "        <error type=" ++ q "UninitValue" ++ ">" ++ nl
    ++ "  Use of uninitialised value" ++ nl ++ nl
    ++ "  0x1: unknown function name" ++ nl
    ++ "  0x1: unknown function name" ++ nl
    ++ "        </error>" ++ nl
    ++ "    </testcase>" ++ nl.
Proof. reflexivity. Qed.

(** C1 at a record without frames.  The record that follows one whose
    last frame has a file and a line gets that location in its name,
    although none of its own frames qualifies: lines 96-100 assign
    nothing when there is no frame, and line 102 reads what the body
    loop of the record before left in [fi] and [li]. *)
Theorem empty_stack_takes_stale_location :
  frames_of error_no_frames = []
  /\ transcode false "r.xml" (report [error_three_frames; error_no_frames])
       unbound
     = (Ok tt, vars_of frame_b,
        xml_decl ++ suite_open false "2" "2"
        ++ case_text "error" "r.xml" 1
             (MkError "Leak_DefinitelyLost" "8 bytes lost"
                [MkFrame "0x1" None None;
                 MkFrame "0x2" (Some "A<B&C>") (Some ("a.c", "10"));
                 MkFrame "0x3" None (Some ("b.c", "20"))])
             ", a.c:10"
        ++ "    <testcase classname=" ++ q "valgrind-memcheck" ++ " name="
        ++ q "r.xml 2 (InvalidRead, b.c:20)" ++ ">" ++ nl
        ++ "        <error type=" ++ q "InvalidRead" ++ ">" ++ nl
        ++ "  Invalid read of size 4" ++ nl ++ nl
        ++ "        </error>" ++ nl
        ++ "    </testcase>" ++ nl
        ++ suite_close).
Proof. split; reflexivity. Qed.

(** C10, as stated, fails for the first record of a file that is not
    the first of the run: the second report starts with a record
    without frames, and no exception is raised; its name takes the
    location of the last frame of the report converted before. *)
Lemma second_file_empty_stack_no_fault :
  parse_two_reports "in/b.xml" = Some (report [error_no_frames])
  /\ findall_descendants "error" (report [error_no_frames])
     = [error_no_frames]
  /\ frames_of error_no_frames = []
  /\ fst (run parse_two_reports false "in" "out" two_reports) = Ok tt
  /\ hd_error (w_files (snd (run parse_two_reports false "in" "out"
                               two_reports)))
     = Some ("out/b.xml",
             xml_decl ++ suite_open false "1" "1"
             ++ "    <testcase classname=" ++ q "valgrind-memcheck"
             ++ " name=" ++ q "b.xml 1 (InvalidRead, b.c:20)" ++ ">" ++ nl
             ++ "        <error type=" ++ q "InvalidRead" ++ ">" ++ nl
             ++ "  Invalid read of size 4" ++ nl ++ nl
             ++ "        </error>" ++ nl
             ++ "    </testcase>" ++ nl
             ++ suite_close).
Proof. repeat split; reflexivity. Qed.

(** C10, amended.  [fi] and [li] are set by the two loops over the
    frames and by nothing else.  For a record without frames the name
    is decided by what the store holds on entry: an exception when [fi]
    is unbound, which is how the run starts, and otherwise the suffix
    of the store, left by the last frame of an earlier record of this
    or an earlier file.  A record with frames is emitted the same way
    from every store, and leaves the lookups of its last frame. *)
Theorem file_line_store_not_reset (label filename : string) (i : nat)
  (error : Element) (rec : ErrorRecord) (vs : vars) :
  decode_error error = Some rec ->
  (frames_of error = [] ->
   emit_error label filename i error vs
   = match suffix_of vs with
     | Ok sfx => (Ok tt, vs, case_text label filename i rec sfx)
     | Raise e => (Raise e, vs, EmptyString)
     end)
  /\ (frames_of error = [] ->
      forall fi li f l,
        vs = {| var_fi := Bound (Some fi); var_li := Bound (Some li) |} ->
        text fi = Some f -> text li = Some l ->
        emit_error label filename i error vs
        = (Ok tt, vs, case_text label filename i rec (", " ++ f ++ ":" ++ l)))
  /\ (frames_of error = [] ->
      var_fi vs = Unbound ->
      emit_error label filename i error vs
      = (Raise NameError, vs, EmptyString))
  /\ (forall skip_tests doc rest,
         findall_descendants "error" doc = error :: rest ->
         frames_of error = [] ->
         exists o,
           transcode skip_tests filename doc (w_vars initial)
           = (Raise NameError, w_vars initial, o))
  /\ (frames_of error <> [] ->
      forall vs2,
        emit_error label filename i error vs
        = emit_error label filename i error vs2)
  /\ (forall frames frame,
         frames_of error = (frames ++ [frame])%list ->
         snd (fst (emit_error label filename i error vs)) = vars_of frame)
  /\ (forall parse skip_tests output_directory subdir name doc w,
         parse (join subdir name) = Some doc ->
         w_vars (snd (convert parse skip_tests output_directory subdir name
                        w))
         = snd (fst (transcode skip_tests name doc (w_vars w)))).
Proof.
  intros Hdec.
  pose proof (emit_error_decoded label filename i error rec vs Hdec) as He.
  pose proof (decode_error_frames error rec Hdec) as Hfs.
  assert (Hempty : frames_of error = [] ->
                   emit_error label filename i error vs
                   = match suffix_of vs with
                     | Ok sfx =>
                         (Ok tt, vs, case_text label filename i rec sfx)
                     | Raise e => (Raise e, vs, EmptyString)
                     end).
  { intros E. rewrite He, E. reflexivity. }
  assert (Hfull : forall v, frames_of error <> [] ->
                  emit_error label filename i error v
                  = (Ok tt, body_vars (frames_of error) v,
                     case_text label filename i rec
                       (suffix_text (first_location (callFrames rec))))).
  { intros v Hne. apply emit_error_with_frames; [exact Hdec|].
    intros E. rewrite E in Hfs. apply Hne.
    destruct (frames_of error) as [|fr frs]; [reflexivity|].
    simpl in Hfs. destruct (decode_frame fr); [|discriminate].
    destruct (decode_frames frs); discriminate. }
  split; [exact Hempty|].
  split; [|split; [|split; [|split; [|split]]]].
  - intros E fi li f l -> Hf Hl. rewrite (Hempty E).
    unfold suffix_of; simpl. now rewrite Hf, Hl.
  - intros E Hu. rewrite (Hempty E). unfold suffix_of. now rewrite Hu.
  - intros skip_tests doc rest Herr E.
    assert (Hne : findall_descendants "error" doc <> [])
      by (rewrite Herr; discriminate).
    rewrite (transcode_errors skip_tests filename doc (w_vars initial) Hne).
    rewrite Herr. cbn [emit_errors].
    assert (H1 : emit_error (status_label skip_tests) filename (0 + 1)
                   error (w_vars initial)
                 = (Raise NameError, w_vars initial, EmptyString)).
    { rewrite (emit_error_decoded _ _ _ _ _ _ Hdec), E. reflexivity. }
    rewrite (bind_raise _ _ _ _ _ _ H1). eexists. reflexivity.
  - intros Hne vs2. now rewrite (Hfull vs Hne), (Hfull vs2 Hne),
      (body_vars_nonempty _ vs vs2 Hne).
  - intros frames frame E.
    assert (Hne : frames_of error <> [])
      by (rewrite E; destruct frames; discriminate).
    rewrite (Hfull vs Hne), E. cbn [fst snd]. apply body_vars_last.
  - intros parse skip_tests output_directory subdir name doc w Hp.
    unfold convert. rewrite Hp.
    now destruct (transcode skip_tests name doc (w_vars w)) as [[r v] o].
Qed.

Lemma file_line_store_not_reset_witness :
  decode_error error_no_frames
  = Some (MkError "InvalidRead" "Invalid read of size 4" [])
  /\ frames_of error_no_frames = []
  /\ emit_error "error" "b.xml" 1 error_no_frames (vars_of frame_b)
     = (Ok tt, vars_of frame_b,
        case_text "error" "b.xml" 1
          (MkError "InvalidRead" "Invalid read of size 4" []) ", b.c:20")
  /\ emit_error "error" "b.xml" 1 error_no_frames unbound
     = (Raise NameError, unbound, EmptyString).
Proof.
  pose proof (file_line_store_not_reset "error" "b.xml" 1 error_no_frames
                (MkError "InvalidRead" "Invalid read of size 4" []))
    as H.
  split; [reflexivity|]. split; [reflexivity|]. split.
  - exact (proj1 (proj2 (H (vars_of frame_b) eq_refl)) eq_refl
             (leaf "file" "b.c") (leaf "line" "20") "b.c" "20"
             eq_refl eq_refl eq_refl).
  - exact (proj1 (proj2 (proj2 (H unbound eq_refl))) eq_refl eq_refl).
Defined.

(** * Further properties of the script *)

(** ** Strings and paths *)

Lemma length_append (a b : string) :
  String.length (a ++ b) = String.length a + String.length b.
Proof. induction a as [|c a IH]; simpl; [reflexivity | now rewrite IH]. Qed.

Lemma substring_whole (t : string) : substring 0 (String.length t) t = t.
Proof. induction t as [|c t IH]; simpl; [reflexivity | now rewrite IH]. Qed.

Lemma substring_append_r (a t : string) :
  substring (String.length a) (String.length t) (a ++ t) = t.
Proof. induction a as [|c a IH]; simpl; [apply substring_whole | exact IH]. Qed.

Lemma endswith_append (a t : string) : endswith (a ++ t) t = true.
Proof.
  unfold endswith. rewrite length_append.
  replace (String.length a + String.length t - String.length t)
    with (String.length a) by lia.
  rewrite substring_append_r, String.eqb_refl, andb_true_r.
  apply Nat.leb_le. lia.
Qed.

(** Lines 67-69: whatever the name of the input file, the report is
    written to a path that ends with [.xml]. *)
Theorem output_path_ends_with_xml (output_directory filename : string) :
  endswith (output_path output_directory filename) ".xml" = true
  /\ forall parse skip_tests subdir doc w,
       parse (join subdir filename) = Some doc ->
       exists text files,
         w_files (snd (convert parse skip_tests output_directory subdir
                         filename w))
         = (output_path output_directory filename, text) :: files.
Proof.
  split.
  - unfold output_path.
    destruct (endswith (join output_directory filename) ".xml") eqn:E.
    + exact E.
    + apply endswith_append.
  - intros parse skip_tests subdir doc w Hp. unfold convert. rewrite Hp.
    destruct (transcode skip_tests filename doc (w_vars w)) as [[r vs] o].
    now exists o, (w_files w).
Qed.

Lemma output_path_ends_with_xml_witness :
  parse_any (join "in" "xmlreport.txt") = Some (report [])
  /\ exists text files,
       w_files (snd (convert parse_any false "out" "in" "xmlreport.txt"
                       initial))
       = ("out/xmlreport.txt.xml", text) :: files.
Proof.
  split; [reflexivity|].
  exact (proj2 (output_path_ends_with_xml "out" "xmlreport.txt")
           parse_any false "in" (report []) initial eq_refl).
Defined.

Lemma prefix_append (p b : string) : prefix p (p ++ b) = true.
Proof.
  induction p as [|c p IH]; simpl; [now destruct b|].
  destruct (ascii_dec c c); [exact IH | congruence].
Qed.

Lemma prefix_split (p s : string) :
  prefix p s = true -> exists b, s = p ++ b.
Proof.
  revert s. induction p as [|c p IH]; intros s; simpl.
  - intros _. now exists s.
  - destruct s as [|d s]; simpl; [discriminate|].
    destruct (ascii_dec c d) as [->|]; [|discriminate].
    intros H. destruct (IH s H) as [b ->]. now exists b.
Qed.

Lemma contains_unfold (pat s : string) :
  contains pat s
  = prefix pat s
    || match s with
       | EmptyString => false
       | String _ s' => contains pat s'
       end.
Proof. destruct s; reflexivity. Qed.

(** Line 57: the test [pat in s] holds exactly when [s] is some text,
    then [pat], then some text; so a file is let through exactly when
    its name has the letters x, m, l in a row, in lower case, anywhere:
    the name need not end with them. *)
Theorem contains_is_substring (pat s : string) :
  contains pat s = true <-> exists a b, s = a ++ pat ++ b.
Proof.
  split.
  - induction s as [|c s IH]; rewrite contains_unfold; intros H;
      apply orb_true_iff in H; destruct H as [H|H].
    + apply prefix_split in H. destruct H as [b ->].
      now exists EmptyString, b.
    + discriminate.
    + apply prefix_split in H. destruct H as [b ->].
      now exists EmptyString, b.
    + destruct (IH H) as (a & b & ->). now exists (String c a), b.
  - intros (a & b & ->). induction a as [|c a IH]; rewrite contains_unfold.
    + simpl append. now rewrite prefix_append.
    + simpl. rewrite IH. apply orb_true_r.
Qed.

Lemma has_char_append (c : ascii) (a b : string) :
  has_char c (a ++ b) = has_char c a || has_char c b.
Proof.
  unfold has_char. induction a as [|x a IH]; simpl; [reflexivity|].
  now rewrite IH, orb_assoc.
Qed.

Lemma basename_cons (c : ascii) (r : string) :
  basename (String c r)
  = if has_slash r then basename r
    else if Ascii.eqb c slash then r else String c r.
Proof. reflexivity. Qed.

Lemma has_slash_cons (c : ascii) (r : string) :
  has_slash (String c r) = Ascii.eqb slash c || has_slash r.
Proof. reflexivity. Qed.

Lemma basename_no_slash (s : string) :
  has_slash s = false -> basename s = s.
Proof.
  destruct s as [|c r]; [reflexivity|].
  rewrite has_slash_cons, basename_cons. intros H.
  apply orb_false_iff in H. destruct H as [Hc Hr].
  now rewrite Hr, Ascii.eqb_sym, Hc.
Qed.

Lemma basename_after_slash (a b : string) :
  has_slash b = false -> basename (a ++ "/" ++ b) = b.
Proof.
  intros Hb. induction a as [|c a IH].
  - change (basename (String slash b) = b).
    rewrite basename_cons, Hb. now rewrite Ascii.eqb_refl.
  - change (basename (String c (a ++ "/" ++ b)) = b).
    rewrite basename_cons.
    replace (has_slash (a ++ "/" ++ b)) with true; [exact IH|].
    symmetry. change (has_char slash (a ++ "/" ++ b) = true).
    rewrite has_char_append. apply orb_true_iff. right. reflexivity.
Qed.

Lemma endswith_slash_split (a : string) :
  endswith a "/" = true -> exists a', a = a' ++ "/".
Proof.
  unfold endswith. induction a as [|c a IH]; [discriminate|].
  destruct a as [|d a].
  - simpl. destruct (Ascii.eqb_spec c "/") as [->|]; [|discriminate].
    intros _. now exists EmptyString.
  - intros H. destruct IH as [a' Ha'].
    + revert H. simpl String.length.
      replace (S (S (String.length a)) - 1) with (S (String.length a - 0))
        by lia.
      replace (S (String.length a) - 1) with (String.length a - 0) by lia.
      intros H. apply andb_true_iff in H. destruct H as [_ H].
      apply andb_true_iff. split; [reflexivity|]. exact H.
    + exists (String c a'). simpl. now rewrite Ha'.
Qed.

(** Lines 53-54: for a directory that [os.walk] reaches below the top,
    [os.path.basename] of the joined path is the directory's own name.
    So the test of line 54 compares names: a directory anywhere in the
    tree is passed over exactly when it is named like the output
    directory, whether or not it is the output directory. *)
Theorem basename_of_joined (top name : string) :
  has_slash name = false ->
  basename (join top name) = name
  /\ forall parse skip_tests output_directory dirs files rest w,
       name = basename output_directory ->
       for_dirs parse skip_tests output_directory
         ((join top name, dirs, files) :: rest) w
       = for_dirs parse skip_tests output_directory rest w.
Proof.
  intros Hn.
  assert (Hb : basename (join top name) = name).
  { unfold join.
    destruct (prefix "/" name) eqn:Hp.
    - apply prefix_split in Hp. destruct Hp as [b ->]. discriminate Hn.
    - destruct (top =? EmptyString) eqn:He.
      + apply String.eqb_eq in He. subst top. simpl.
        now apply basename_no_slash.
      + simpl. destruct (endswith top "/") eqn:Hs.
        * destruct (endswith_slash_split top Hs) as [a' ->].
          rewrite append_assoc. now apply basename_after_slash.
        * now apply basename_after_slash. }
  split; [exact Hb|].
  intros parse skip_tests output_directory dirs files rest w E. simpl.
  rewrite Hb, E. now rewrite String.eqb_refl.
Qed.

Lemma basename_of_joined_witness :
  has_slash "out" = false
  /\ basename (join "in/project" "out") = "out"
  /\ for_dirs parse_any false "results/out"
       [(join "in/project" "out", [], ["a.xml"])] initial
     = (Ok tt, initial).
Proof.
  split; [reflexivity|]. split.
  - exact (proj1 (basename_of_joined "in/project" "out" eq_refl)).
  - exact (proj2 (basename_of_joined "in/project" "out" eq_refl)
             parse_any false "results/out" [] ["a.xml"] [] initial
             eq_refl).
Defined.

(** ** The function name in the body *)

(** Lines 118-120: after the three replacements the function name holds
    no [<] and no [>], whatever it was: a function name cannot open or
    close a tag in the report. *)
Theorem escaped_name_has_no_angle_bracket (s : string) :
  let bodytext := replace ">" "&gt;" (replace "<" "&lt;"
                    (replace "&" "&amp;" s)) in
  has_char "<" bodytext = false /\ has_char ">" bodytext = false.
Proof.
  intros bodytext. subst bodytext. rewrite replace_chain_escape.
  assert (H : forall c, c = "<"%char \/ c = ">"%char ->
                        has_char c (escape s) = false).
  { intros c Hc. induction s as [|x s IH]; [reflexivity|].
    change (escape (String x s)) with (escape_char x ++ escape s).
    rewrite has_char_append, IH, orb_false_r. unfold escape_char.
    destruct (Ascii.eqb_spec x "&"); [destruct Hc as [->| ->]; reflexivity|].
    destruct (Ascii.eqb_spec x "<"); [destruct Hc as [->| ->]; reflexivity|].
    destruct (Ascii.eqb_spec x ">"); [destruct Hc as [->| ->]; reflexivity|].
    unfold has_char; cbn [list_ascii_of_string existsb]. rewrite orb_false_r.
    apply Ascii.eqb_neq. destruct Hc as [->| ->]; congruence. }
  split; apply H; [now left | now right].
Qed.

(** Lines 118-120: the replacements lose nothing: two function names
    that are written alike are the same name. *)
Theorem escaping_is_injective (s1 s2 : string) :
  replace ">" "&gt;" (replace "<" "&lt;" (replace "&" "&amp;" s1))
  = replace ">" "&gt;" (replace "<" "&lt;" (replace "&" "&amp;" s2)) ->
  s1 = s2.
Proof.
  rewrite !replace_chain_escape. revert s2.
  induction s1 as [|c1 r1 IH]; intros [|c2 r2].
  - reflexivity.
  - change (escape (String c2 r2)) with (escape_char c2 ++ escape r2).
    unfold escape_char.
    destruct (Ascii.eqb c2 "&"); [|destruct (Ascii.eqb c2 "<");
      [|destruct (Ascii.eqb c2 ">")]]; discriminate.
  - change (escape (String c1 r1)) with (escape_char c1 ++ escape r1).
    unfold escape_char.
    destruct (Ascii.eqb c1 "&"); [|destruct (Ascii.eqb c1 "<");
      [|destruct (Ascii.eqb c1 ">")]]; discriminate.
  - change (escape (String c1 r1)) with (escape_char c1 ++ escape r1).
    change (escape (String c2 r2)) with (escape_char c2 ++ escape r2).
    unfold escape_char.
    destruct (Ascii.eqb_spec c1 "&") as [->|N1];
      [|destruct (Ascii.eqb_spec c1 "<") as [->|N2];
        [|destruct (Ascii.eqb_spec c1 ">") as [->|N3]]];
      (destruct (Ascii.eqb_spec c2 "&") as [->|M1];
       [|destruct (Ascii.eqb_spec c2 "<") as [->|M2];
         [|destruct (Ascii.eqb_spec c2 ">") as [->|M3]]]);
      cbn [append]; intros H; injection H as H; subst;
      try discriminate; try congruence;
      f_equal; apply IH; congruence.
Qed.

Lemma escaping_is_injective_witness : "A<B&C>" = "A<B&C>".
Proof. exact (escaping_is_injective "A<B&C>" "A<B&C>" eq_refl). Defined.

(** ** The numbers in the names *)

Lemma append_cancel_l (a x y : string) : a ++ x = a ++ y -> x = y.
Proof.
  induction a as [|c a IH]; simpl; [trivial|].
  intros H. injection H as H. now apply IH.
Qed.

Lemma to_uint_not_nil (n : nat) : Nat.to_uint n <> Decimal.Nil.
Proof.
  intros E. pose proof (Unsigned.to_of (Nat.to_uint n)) as H.
  rewrite Unsigned.of_to, E in H. discriminate H.
Qed.

Lemma str_injective (i j : nat) : str i = str j -> i = j.
Proof.
  unfold str. intros E. apply Unsigned.to_uint_inj.
  pose proof (NilZero.usu (Nat.to_uint i) (to_uint_not_nil i)) as Hi.
  pose proof (NilZero.usu (Nat.to_uint j) (to_uint_not_nil j)) as Hj.
  rewrite E, Hj in Hi. now injection Hi.
Qed.

Lemma digits_have_no_space (d : Decimal.uint) :
  has_char " " (NilEmpty.string_of_uint d) = false.
Proof. induction d; simpl; [reflexivity | exact IHd ..]. Qed.

Lemma str_has_no_space (n : nat) : has_char " " (str n) = false.
Proof.
  unfold str, NilZero.string_of_uint.
  destruct (Nat.to_uint n) eqn:E; [reflexivity | ..];
    apply digits_have_no_space.
Qed.

Lemma space_delimits (a b x y : string) :
  has_char " " a = false -> has_char " " b = false ->
  a ++ " " ++ x = b ++ " " ++ y -> a = b.
Proof.
  revert b. induction a as [|c a IH]; intros [|d b] Ha Hb H.
  - reflexivity.
  - simpl in H. injection H as <- _.
    unfold has_char in Hb. simpl in Hb. discriminate Hb.
  - simpl in H. injection H as -> _.
    unfold has_char in Ha. simpl in Ha. discriminate Ha.
  - simpl in H. injection H as -> H.
    unfold has_char in Ha, Hb. cbn [list_ascii_of_string existsb] in Ha, Hb.
    apply orb_false_iff in Ha. apply orb_false_iff in Hb.
    f_equal. apply IH; [apply Ha | apply Hb | exact H].
Qed.

(** Lines 84-86 and 103-105: the number in a name tells the records of
    one file apart.  Two test cases of the same file with different
    numbers differ already in their opening line, whatever the kinds and
    locations are; so the names in one report are pairwise distinct. *)
Theorem numbered_names_differ (filename : string) (i j : nat)
  (rest1 rest2 : string) :
  i <> j ->
  testcase_start filename i ++ rest1 <> testcase_start filename j ++ rest2.
Proof.
  intros Hij H. apply Hij. unfold testcase_start in H.
  rewrite !append_assoc in H.
  repeat (apply append_cancel_l in H).
  apply str_injective.
  apply (space_delimits (str i) (str j) ("(" ++ rest1) ("(" ++ rest2));
    [apply str_has_no_space | apply str_has_no_space | exact H].
Qed.

Lemma numbered_names_differ_witness :
  testcase_start "r.xml" 1 ++ "InvalidRead)"
  <> testcase_start "r.xml" 11 ++ "InvalidRead)".
Proof.
  apply (numbered_names_differ "r.xml" 1 11 "InvalidRead)" "InvalidRead)").
  discriminate.
Defined.

(** ** The search for error nodes *)

Lemma iter_self (e : Element) : In e (iter e).
Proof. destruct e. left. reflexivity. Qed.

Lemma iter_children (e c d : Element) :
  In c (children e) -> In d (iter c) -> In d (iter e).
Proof.
  destruct e as [t x cs]. simpl. intros Hc Hd. right.
  apply in_flat_map. now exists c.
Qed.

(** Line 64: the search is deep.  A node tagged [t] is found when it is
    a child of the document's root, and whatever is found below a child
    is found from the root: records are converted at any depth, also
    inside other records.  The root itself is never looked at: only its
    children and what is below them count. *)
Theorem findall_descendants_is_deep (t : string) (e : Element) :
  (forall c, In c (children e) -> tag c = t ->
             In c (findall_descendants t e))
  /\ (forall c d, In c (children e) -> In d (findall_descendants t c) ->
                  In d (findall_descendants t e))
  /\ (forall d, In d (findall_descendants t e) ->
                tag d = t /\ exists c, In c (children e) /\ In d (iter c))
  /\ (forall t0 x, findall_descendants t (Elem t0 x (children e))
                   = findall_descendants t e).
Proof.
  unfold findall_descendants. repeat split.
  - intros c Hc Ht. apply filter_In. split.
    + apply in_flat_map. exists c. split; [exact Hc | apply iter_self].
    + now apply String.eqb_eq.
  - intros c d Hc Hd. apply filter_In in Hd. destruct Hd as [Hd Ht].
    apply filter_In. split; [|exact Ht].
    apply in_flat_map in Hd. destruct Hd as (g & Hg & Hd).
    apply in_flat_map. exists c. split; [exact Hc|].
    now apply iter_children with (c := g).
  - apply filter_In in H. now apply String.eqb_eq.
  - apply filter_In in H. destruct H as [H _]. now apply in_flat_map in H.
Qed.

Lemma findall_descendants_is_deep_witness :
  In error_no_frames
    (findall_descendants "error"
       (report [Elem "error" None [leaf "kind" "Outer"; error_no_frames]])).
Proof.
  apply (proj1 (proj2 (findall_descendants_is_deep "error"
                         (report [Elem "error" None
                                    [leaf "kind" "Outer"; error_no_frames]])))
           (Elem "error" None [leaf "kind" "Outer"; error_no_frames])
           error_no_frames).
  - right. left. reflexivity.
  - left. reflexivity.
Defined.

(** ** What a normal end needs *)

Lemma decode_frame_fields (frame : Element) (sf : StackFrame) :
  decode_frame frame = Some sf ->
  (exists ip, find "ip" frame = Some ip
              /\ text ip = Some (instructionPointer sf))
  /\ (forall fn, find "fn" frame = Some fn -> text fn <> None)
  /\ (forall fi li,
         find "file" frame = Some fi -> find "line" frame = Some li ->
         text fi <> None /\ text li <> None).
Proof.
  unfold decode_frame, decode_name, decode_location.
  destruct (find "ip" frame) as [ip|]; [|discriminate].
  destruct (text ip) as [i|] eqn:Ei; [|discriminate].
  destruct (find "fn" frame) as [fn|];
    [destruct (text fn) as [n|] eqn:En; [|discriminate]|];
    (destruct (find "file" frame) as [fi|];
     [destruct (find "line" frame) as [li|];
      [destruct (text fi) as [f|] eqn:Ef; [|discriminate];
       destruct (text li) as [l|] eqn:El; [|discriminate]|]|]);
    intros [= <-]; (split; [now exists ip|]); split;
    try (intros ? [= <-]; congruence); try discriminate;
    try (intros ? ? [= <-] [= <-]; split; congruence);
    try (intros ? ? ? ?; discriminate); intros; discriminate.
Qed.

Lemma decode_frames_each (frames : list Element) (sfs : list StackFrame) :
  decode_frames frames = Some sfs ->
  forall frame, In frame frames -> exists sf, decode_frame frame = Some sf.
Proof.
  revert sfs. induction frames as [|fr rest IH]; intros sfs; simpl.
  - intros _ frame [].
  - destruct (decode_frame fr) as [sf|] eqn:Hsf; [|discriminate].
    destruct (decode_frames rest) as [sfs'|]; [|discriminate].
    intros _ frame [<-|Hin]; [now exists sf|]. now apply (IH sfs').
Qed.

(** Lines 88-124: when the transcoding of a file ends normally, every
    error record of the file had a [kind] and a description ([what],
    else [xwhat/text]) with text and a [stack], and every frame an [ip]
    with text, an [fn] with text if it had one, and a [file] and a [line]
    with text if it had both.  A record short of any of these ends the
    run with an exception; nothing is defaulted except the function
    name. *)
Theorem normal_end_needs_complete_records (skip_tests : bool)
  (filename : string) (doc : Element) (vs vs' : vars) (o : string) :
  transcode skip_tests filename doc vs = (Ok tt, vs', o) ->
  forall error, In error (findall_descendants "error" doc) ->
    (exists k kt, find "kind" error = Some k /\ text k = Some kt)
    /\ (exists w wt, what_of error = Some w /\ text w = Some wt)
    /\ exists stack,
         find "stack" error = Some stack /\
         forall frame, In frame (findall "frame" stack) ->
           (exists ip i, find "ip" frame = Some ip /\ text ip = Some i)
           /\ (forall fn, find "fn" frame = Some fn -> text fn <> None)
           /\ (forall fi li,
                  find "file" frame = Some fi ->
                  find "line" frame = Some li ->
                  text fi <> None /\ text li <> None).
Proof.
  intros Hok error Hin.
  destruct (decode_error error) as [rec|] eqn:Hdec.
  - destruct (decode_error_kind error rec Hdec) as (k & Hk & Hkt).
    destruct (decode_error_description error rec Hdec) as (w & Hw & Hwt).
    pose proof (decode_error_frames error rec Hdec) as Hfs.
    split; [now exists k, (kind rec)|].
    split; [now exists w, (description rec)|].
    unfold frames_of in Hfs.
    destruct (find "stack" error) as [stack|] eqn:Es.
    + exists stack. split; [reflexivity|]. intros frame Hf.
      destruct (decode_frames_each _ _ Hfs frame Hf) as [sf Hsf].
      destruct (decode_frame_fields frame sf Hsf) as ((ip & Hip & Hi) & H2).
      split; [now exists ip, (instructionPointer sf) | exact H2].
    + unfold decode_error in Hdec. rewrite Es in Hdec.
      destruct (find "kind" error); [|discriminate].
      destruct (what_of error); discriminate.
  - destruct (transcode_raises skip_tests filename doc error vs Hin Hdec)
      as [e He].
    rewrite Hok in He. discriminate.
Qed.

Lemma normal_end_needs_complete_records_witness :
  exists k kt, find "kind" error_xwhat = Some k /\ text k = Some kt.
Proof.
  exact (proj1 (normal_end_needs_complete_records true "r.xml"
                  (report [error_xwhat]) unbound (vars_of frame_b) _
                  eq_refl error_xwhat (or_introl eq_refl))).
Defined.

(** ** Independence from what was converted before *)

Lemma scan_vars_from_any (frames : list Element) (vs1 vs2 : vars) :
  frames <> [] -> scan_vars frames vs1 = scan_vars frames vs2.
Proof.
  destruct frames as [|frame rest]; [congruence|]; intros _; reflexivity.
Qed.

Lemma bind_from_any {A B} (m : T A) (f : A -> T B) (vs1 vs2 : vars) :
  m vs1 = m vs2 -> bind m f vs1 = bind m f vs2.
Proof. intros H. unfold bind. now rewrite H. Qed.

Lemma emit_error_from_any (label filename : string) (i : nat)
  (error : Element) (vs1 vs2 : vars) :
  frames_of error <> [] ->
  emit_error label filename i error vs1
  = emit_error label filename i error vs2.
Proof.
  unfold frames_of, emit_error.
  destruct (find "stack" error) as [stack|]; [|congruence].
  intros Hne. simpl findall_of.
  unfold bind at 1. unfold eval at 1.
  symmetry. unfold bind at 1. unfold eval at 1. symmetry.
  rewrite (bind_from_any (scan_frames (findall "frame" stack)) _ vs1 vs2);
    [reflexivity|].
  rewrite !scan_frames_spec.
  now rewrite (scan_vars_from_any _ vs1 vs2 Hne).
Qed.

Lemma emit_errors_from_any (label filename : string)
  (errors : list Element) :
  (forall error, In error errors -> frames_of error <> []) ->
  errors <> [] ->
  forall n vs1 vs2,
    emit_errors label filename n errors vs1
    = emit_errors label filename n errors vs2.
Proof.
  intros Hall Hne n vs1 vs2.
  destruct errors as [|error rest]; [congruence|]. simpl.
  apply bind_from_any. apply emit_error_from_any. apply Hall. now left.
Qed.

(** Lines 93-105: a report in which every record has at least one frame
    is converted the same way whatever was converted before it: the
    text written and the way the transcoding ends do not depend on the
    store that earlier records and files left.  Converting it twice
    gives the same text twice. *)
Theorem frames_make_output_independent (skip_tests : bool)
  (filename : string) (doc : Element) (vs1 vs2 : vars) :
  (forall error, In error (findall_descendants "error" doc) ->
                 frames_of error <> []) ->
  fst (fst (transcode skip_tests filename doc vs1))
  = fst (fst (transcode skip_tests filename doc vs2))
  /\ snd (transcode skip_tests filename doc vs1)
     = snd (transcode skip_tests filename doc vs2).
Proof.
  intros Hall.
  destruct (findall_descendants "error" doc) as [|error rest] eqn:E.
  - now rewrite !(transcode_no_errors skip_tests filename doc _ E).
  - assert (Hne : findall_descendants "error" doc <> [])
      by (rewrite E; discriminate).
    rewrite !(transcode_errors skip_tests filename doc _ Hne).
    rewrite E.
    rewrite (emit_errors_from_any (status_label skip_tests) filename
               (error :: rest) Hall ltac:(discriminate) 0 vs1 vs2).
    split; reflexivity.
Qed.

Lemma frames_make_output_independent_witness :
  snd (transcode false "r.xml" (report [error_three_frames; error_xwhat])
         unbound)
  = snd (transcode false "r.xml" (report [error_three_frames; error_xwhat])
           (vars_of frame_a)).
Proof.
  apply (frames_make_output_independent false "r.xml"
           (report [error_three_frames; error_xwhat]) unbound
           (vars_of frame_a)).
  intros error [<-|[<-|[]]]; discriminate.
Defined.

(** ** What skip mode leaves alone *)














(** ** What a run reads and writes *)

Section Effects.

Variable parse : string -> option Element.
Variable skip_tests : bool.
Variable output_directory : string.

Local Abbreviation path_of := (fun c : string * string => join (fst c) (snd c)).
Local Abbreviation out_of :=
  (fun c : string * string => output_path output_directory (snd c)).
Local Abbreviation parses :=
  (fun c : string * string => is_some (parse (join (fst c) (snd c)))).

Lemma convert_written (subdir filename : string) (w : world) :
  map fst (w_files (snd (convert parse skip_tests output_directory subdir
                           filename w)))
  = ((if is_some (parse (join subdir filename))
      then [output_path output_directory filename] else [])
     ++ map fst (w_files w))%list.
Proof.
  unfold convert, output_path.
  destruct (parse (join subdir filename)) as [doc|]; [|reflexivity].
  now destruct (transcode skip_tests filename doc (w_vars w)) as [[r vs] o].
Qed.

Lemma for_files_effects (subdir : string) (files : list string) :
  forall w w',
    for_files parse skip_tests output_directory subdir files w = (Ok tt, w') ->
    let cs := map (fun filename => (subdir, filename))
                (filter (contains "xml") files) in
    w_parsed w' = (rev (map path_of cs) ++ w_parsed w)%list
    /\ map fst (w_files w')
       = (rev (map out_of (filter parses cs)) ++ map fst (w_files w))%list.
Proof.
  induction files as [|filename rest IH]; intros w w'; simpl.
  - intros [= <-]. now split.
  - destruct (contains "xml" filename); [|apply IH].
    pose proof (convert_parsed parse skip_tests output_directory subdir
                  filename w) as Hp.
    pose proof (convert_written subdir filename w) as Hf.
    destruct (convert parse skip_tests output_directory subdir filename w)
      as [[[]|e] w1]; [|discriminate].
    simpl in Hp, Hf. intros H. apply IH in H. destruct H as [H1 H2].
    simpl. rewrite H1, H2, Hp, Hf.
    destruct (parse (join subdir filename)); simpl;
      rewrite <- ?List.app_assoc; now split.
Qed.

Lemma for_dirs_effects
  (entries : list (string * list string * list string)) :
  forall w w',
    for_dirs parse skip_tests output_directory entries w = (Ok tt, w') ->
    let cs := candidate_files output_directory entries in
    w_parsed w' = (rev (map path_of cs) ++ w_parsed w)%list
    /\ map fst (w_files w')
       = (rev (map out_of (filter parses cs)) ++ map fst (w_files w))%list.
Proof.
  induction entries as [|[[subdir dirs] files] rest IH]; intros w w'; simpl.
  - intros [= <-]. now split.
  - destruct (basename subdir =? basename output_directory); [apply IH|].
    destruct (for_files parse skip_tests output_directory subdir files w)
      as [[[]|e] w1] eqn:Hfiles; [|discriminate].
    apply for_files_effects in Hfiles. destruct Hfiles as [F1 F2].
    intros H. apply IH in H. destruct H as [H1 H2].
    rewrite H1, H2, F1, F2.
    rewrite filter_app, !map_app, !rev_app_distr, <- !List.app_assoc.
    now split.
Qed.

Lemma for_files_app (subdir : string) (a b : list string) :
  forall w,
    for_files parse skip_tests output_directory subdir (a ++ b)%list w
    = match for_files parse skip_tests output_directory subdir a w with
      | (Ok _, w') =>
          for_files parse skip_tests output_directory subdir b w'
      | (Raise e, w') => (Raise e, w')
      end.
Proof.
  induction a as [|filename a IH]; intros w; simpl; [reflexivity|].
  destruct (contains "xml" filename); [|apply IH].
  destruct (convert parse skip_tests output_directory subdir filename w)
    as [[[]|e] w1]; [apply IH | reflexivity].
Qed.

Lemma for_dirs_app (a b : list (string * list string * list string)) :
  forall w,
    for_dirs parse skip_tests output_directory (a ++ b)%list w
    = match for_dirs parse skip_tests output_directory a w with
      | (Ok _, w') => for_dirs parse skip_tests output_directory b w'
      | (Raise e, w') => (Raise e, w')
      end.
Proof.
  induction a as [|[[subdir dirs] files] a IH]; intros w; simpl;
    [reflexivity|].
  destruct (basename subdir =? basename output_directory); [apply IH|].
  destruct (for_files parse skip_tests output_directory subdir files w)
    as [[[]|e] w1]; [apply IH | reflexivity].
Qed.

End Effects.

(** Lines 53-63: when the run ends normally, the paths given to the
    parser are exactly the files with "xml" in their name that are
    listed in the walked directories not named like the output
    directory: each once, in the order of the walk (the list is kept
    most recent first). *)
Theorem normal_run_reads (parse : string -> option Element)
  (skip_tests : bool) (input_directory output_directory : string)
  (tree : Dir) :
  fst (run parse skip_tests input_directory output_directory tree) = Ok tt ->
  w_parsed (snd (run parse skip_tests input_directory output_directory tree))
  = rev (map (fun c => join (fst c) (snd c))
           (candidate_files output_directory (walk input_directory tree))).
Proof.
  unfold run. intros H.
  destruct (for_dirs parse skip_tests output_directory
              (walk input_directory tree) initial) as [r w'] eqn:E.
  simpl in H. subst r. apply for_dirs_effects in E.
  destruct E as [E _]. simpl. rewrite E. simpl. apply List.app_nil_r.
Qed.

Lemma normal_run_reads_witness :
  w_parsed (snd (run parse_any false "in" "in/out" nested_output))
  = ["in/out/sub/deep.xml"; "in/a.xml"].
Proof.
  exact (normal_run_reads parse_any false "in" "in/out" nested_output
           eq_refl).
Defined.

(** Lines 60-69 and 77: when the run ends normally, one file is written
    for each file read that parsed, in the order read, at the output
    directory joined with the bare file name (with [.xml] added when
    the name does not end with it); nothing is written for a file that
    did not parse, and nothing anywhere else.  Files of the same name in
    different directories are written to the same path. *)
Theorem normal_run_writes (parse : string -> option Element)
  (skip_tests : bool) (input_directory output_directory : string)
  (tree : Dir) :
  fst (run parse skip_tests input_directory output_directory tree) = Ok tt ->
  map fst
    (w_files (snd (run parse skip_tests input_directory output_directory
                     tree)))
  = rev (map (fun c => output_path output_directory (snd c))
           (filter (fun c => is_some (parse (join (fst c) (snd c))))
              (candidate_files output_directory
                 (walk input_directory tree)))).
Proof.
  unfold run. intros H.
  destruct (for_dirs parse skip_tests output_directory
              (walk input_directory tree) initial) as [r w'] eqn:E.
  simpl in H. subst r. apply for_dirs_effects in E.
  destruct E as [_ E]. simpl. rewrite E. simpl. apply List.app_nil_r.
Qed.

Lemma normal_run_writes_witness :
  map fst (w_files (snd (run parse_mixed true "in" "out" mixed_reports)))
  = ["out/good.xml"].
Proof.
  exact (normal_run_writes parse_mixed true "in" "out" mixed_reports
           eq_refl).
Defined.

(** Lines 53-128: an exception raised while a file is transcoded ends
    the run there.  When the directories and files listed before were
    gone through normally, the loops end with that exception in the
    state reached at the fault: the file is the last path parsed and
    its unfinished report the last file written.  The files and
    directories listed after it play no part: they are neither read
    nor written. *)
Theorem fault_ends_the_run (parse : string -> option Element)
  (skip_tests : bool) (output_directory : string)
  (before after : list (string * list string * list string))
  (subdir : string) (dirs files_before files_after : list string)
  (filename : string) (doc : Element) (w w0 w1 : world) (vs : vars)
  (e : exn) (text : string) :
  for_dirs parse skip_tests output_directory before w = (Ok tt, w0) ->
  (basename subdir =? basename output_directory) = false ->
  for_files parse skip_tests output_directory subdir files_before w0
  = (Ok tt, w1) ->
  contains "xml" filename = true ->
  parse (join subdir filename) = Some doc ->
  transcode skip_tests filename doc (w_vars w1) = (Raise e, vs, text) ->
  for_dirs parse skip_tests output_directory
    (before
     ++ (subdir, dirs, files_before ++ filename :: files_after) :: after)%list
    w
  = (Raise e,
     {| w_vars := vs;
        w_parsed := join subdir filename :: w_parsed w1;
        w_files :=
          (output_path output_directory filename, text) :: w_files w1 |}).
Proof.
  intros Hbefore Hb Hfiles Hx Hp Ht.
  rewrite for_dirs_app, Hbefore. simpl. rewrite Hb.
  rewrite for_files_app, Hfiles. simpl. rewrite Hx.
  unfold convert. rewrite Hp, Ht. reflexivity.
Qed.

Lemma fault_ends_the_run_witness :
  for_dirs parse_faulty false "out"
    [("in", [], ["nokind.xml"; "good.xml"]); ("in/sub", [], ["late.xml"])]
    initial
  = (Raise AttributeError,
     {| w_vars := vars_of frame_a;
        w_parsed := ["in/nokind.xml"];
        w_files :=
          [("out/nokind.xml",
            snd (transcode false "nokind.xml"
                   (report [error_xwhat; error_no_kind]) unbound))] |}).
Proof.
  exact (fault_ends_the_run parse_faulty false "out" []
           [("in/sub", [], ["late.xml"])] "in" [] [] ["good.xml"]
           "nokind.xml" (report [error_xwhat; error_no_kind])
           initial initial initial (vars_of frame_a) AttributeError
           (snd (transcode false "nokind.xml"
                   (report [error_xwhat; error_no_kind]) unbound))
           eq_refl eq_refl eq_refl eq_refl eq_refl eq_refl).
Defined.

(** ** The shape of the files written *)

Lemma transcode_whole (skip_tests : bool) (filename : string)
  (doc : Element) (vs vs' : vars) (o : string) :
  transcode skip_tests filename doc vs = (Ok tt, vs', o) ->
  exists body, o = xml_decl ++ body ++ "</testsuite>" ++ nl.
Proof.
  destruct (findall_descendants "error" doc) as [|error rest] eqn:E.
  - rewrite (transcode_no_errors skip_tests filename doc vs E).
    intros H. apply (f_equal snd) in H. cbn [snd] in H. subst o.
    exists (suite_open skip_tests "1" "0" ++ passing_case filename).
    rewrite append_assoc. reflexivity.
  - assert (Hne : findall_descendants "error" doc <> [])
      by (rewrite E; discriminate).
    rewrite (transcode_errors skip_tests filename doc vs Hne).
    destruct (emit_errors _ _ _ _ _) as [[[[]|e] v] o1]; [|discriminate].
    intros H. apply (f_equal snd) in H. cbn [snd] in H. subst o.
    eexists (suite_open skip_tests _ _ ++ o1).
    rewrite append_assoc. reflexivity.
Qed.

Lemma suite_open_begun (skip_tests : bool) (tests count rest : string) :
  suite_open skip_tests tests count ++ rest
  = "<testsuite name=" ++ q "valgrind" ++ " tests="
    ++ q tests ++ " " ++ count_attribute skip_tests ++ "=" ++ q count
    ++ ">" ++ nl ++ rest.
Proof. unfold suite_open. now rewrite !append_assoc. Qed.

Lemma transcode_begun (skip_tests : bool) (filename : string)
  (doc : Element) (vs : vars) :
  exists rest,
    snd (transcode skip_tests filename doc vs)
    = xml_decl ++ "<testsuite name=" ++ q "valgrind" ++ " tests=" ++ rest.
Proof.
  destruct (findall_descendants "error" doc) as [|error rest] eqn:E.
  - rewrite (transcode_no_errors skip_tests filename doc vs E).
    cbn [snd]. rewrite suite_open_begun. eexists. reflexivity.
  - assert (Hne : findall_descendants "error" doc <> [])
      by (rewrite E; discriminate).
    rewrite (transcode_errors skip_tests filename doc vs Hne).
    destruct (emit_errors _ _ _ _ _) as [[[[]|e] v] o1]; cbn [snd];
      rewrite suite_open_begun; eexists; reflexivity.
Qed.

Section Shape.

Variable parse : string -> option Element.
Variable skip_tests : bool.
Variable output_directory : string.

Local Abbreviation begun :=
  (fun pf : string * string =>
     exists rest,
       snd pf
       = xml_decl ++ "<testsuite name=" ++ q "valgrind" ++ " tests=" ++ rest).
Local Abbreviation whole :=
  (fun pf : string * string =>
     exists body, snd pf = xml_decl ++ body ++ "</testsuite>" ++ nl).
Local Abbreviation shaped :=
  (fun (r : result unit) (w : world) =>
     Forall begun (w_files w) /\
     match r with
     | Ok _ => Forall whole (w_files w)
     | Raise _ => Forall whole (tl (w_files w))
     end).

Lemma convert_shaped (subdir filename : string) (w : world) :
  Forall begun (w_files w) -> Forall whole (w_files w) ->
  shaped (fst (convert parse skip_tests output_directory subdir filename w))
    (snd (convert parse skip_tests output_directory subdir filename w)).
Proof.
  intros Hb Hw. unfold convert.
  destruct (parse (join subdir filename)) as [doc|]; [|now split].
  pose proof (transcode_begun skip_tests filename doc (w_vars w)) as Hbegun.
  pose proof (transcode_whole skip_tests filename doc (w_vars w)) as Hwhole.
  destruct (transcode skip_tests filename doc (w_vars w)) as [[r vs] o].
  cbn [fst snd w_files]. split.
  - constructor; [exact Hbegun | exact Hb].
  - destruct r as [[]|e]; [|exact Hw].
    constructor; [|exact Hw]. exact (Hwhole vs o eq_refl).
Qed.

Lemma for_files_shaped (subdir : string) (files : list string) :
  forall w,
    Forall begun (w_files w) -> Forall whole (w_files w) ->
    shaped (fst (for_files parse skip_tests output_directory subdir files w))
      (snd (for_files parse skip_tests output_directory subdir files w)).
Proof.
  induction files as [|filename rest IH]; intros w Hb Hw; simpl.
  - now split.
  - destruct (contains "xml" filename); [|now apply IH].
    pose proof (convert_shaped subdir filename w Hb Hw) as Hc.
    destruct (convert parse skip_tests output_directory subdir filename w)
      as [[[]|e] w1]; cbn [fst snd] in Hc.
    + destruct Hc as [Hb1 Hw1]. now apply IH.
    + exact Hc.
Qed.

Lemma for_dirs_shaped (entries : list (string * list string * list string)) :
  forall w,
    Forall begun (w_files w) -> Forall whole (w_files w) ->
    shaped (fst (for_dirs parse skip_tests output_directory entries w))
      (snd (for_dirs parse skip_tests output_directory entries w)).
Proof.
  induction entries as [|[[subdir dirs] files] rest IH]; intros w Hb Hw;
    simpl.
  - now split.
  - destruct (basename subdir =? basename output_directory);
      [now apply IH|].
    pose proof (for_files_shaped subdir files w Hb Hw) as Hc.
    destruct (for_files parse skip_tests output_directory subdir files w)
      as [[[]|e] w1]; cbn [fst snd] in Hc.
    + destruct Hc as [Hb1 Hw1]. now apply IH.
    + exact Hc.
Qed.

End Shape.

(** Lines 77-83 and 127: every file that the run writes starts with the
    XML declaration and the opening of the [testsuite] element.  Every
    file is closed by the closing tag of the [testsuite], except, when
    the run ends with an exception, the file written last, which the
    exception cut short. *)
Theorem written_files_shape (parse : string -> option Element)
  (skip_tests : bool) (input_directory output_directory : string)
  (tree : Dir) :
  let r := fst (run parse skip_tests input_directory output_directory tree) in
  let files :=
    w_files (snd (run parse skip_tests input_directory output_directory
                    tree)) in
  Forall (fun pf =>
            exists rest,
              snd pf = xml_decl ++ "<testsuite name=" ++ q "valgrind"
                       ++ " tests=" ++ rest) files
  /\ Forall (fun pf =>
               exists body, snd pf = xml_decl ++ body ++ "</testsuite>" ++ nl)
       match r with
       | Ok _ => files
       | Raise _ => tl files
       end.
Proof.
  intros r files. subst r files. unfold run.
  destruct (for_dirs_shaped parse skip_tests output_directory
              (walk input_directory tree) initial (Forall_nil _)
              (Forall_nil _)) as [Hb Hw].
  split; [exact Hb|].
  destruct (fst (for_dirs parse skip_tests output_directory
                   (walk input_directory tree) initial)); exact Hw.
Qed.
